(** * Inventory service (Express + multer over a JSON file)

    A shallow embedding of [main.js] (and of its Swagger-documented twin,
    which differs only in the [created_at] field and in the directory that
    holds the photos), followed by the properties of the service's
    specification.

    Modelling conventions.
    - JavaScript values that travel through request bodies and record
      fields are the type [value]; arrays and nested objects in a body are
      outside the model, and so are bodies the parsers reject.
    - Numbers are mathematical integers ([Z]): record ids stay far below
      2^53, where the arithmetic of JavaScript numbers is exact.
    - Strings are sequences of code units below 256.
    - The persisted file [inventory.json] is one of: absent, present but
      rejected by [JSON.parse], or the serialisation of an array of
      records.  [JSON.parse (JSON.stringify x)] is the identity on such
      arrays (fields holding [undefined] are dropped by the serialiser and
      read back as [undefined]).
    - A handler is a function in a state monad over the [world] (record
      file and photo directory); what the platform decides for a request
      (does the write succeed and, if not, had the file been opened; the
      clock; the random number) is the request's [env].  Requests are
      served one at a time.
    - Express is modelled as far as the order of its layers, the matching
      of methods and paths and the propagation of errors go.  The methods
      are GET, HEAD, POST, PUT, DELETE, and PATCH for the methods no route
      names.  A response is the status and what the handler hands to
      [res.json] or [res.sendFile]; of this a HEAD request is sent the
      status and the headers only.
    - The working directory is the directory of the script, and
      [express.static(".")] finds no file under the paths of the API. *)

From stdpp Require Import base option list strings gmap.
From Stdlib Require Import ZArith Lia Ascii DecimalString DecimalPos.

Local Open Scope string_scope.
Local Open Scope Z_scope.

(** ** JavaScript values *)

Inductive value : Type :=
| Undefined
| Null
| Bool (b : bool)
| Num (n : Z)
| Str (s : string).

#[global] Instance value_eq_dec : EqDecision value.
Proof. solve_decision. Defined.

(** ToBoolean: what [if (v)], [!v], [v || d] and [v ? a : b] test. *)
Definition truthy (v : value) : bool :=
  match v with
  | Undefined | Null => false
  | Bool b => b
  | Num n => negb (n =? 0)
  | Str s => negb (String.eqb s "")
  end.

(** Number::toString on an integer. *)
Definition string_of_Z (n : Z) : string := NilZero.string_of_int (Z.to_int n).

(** ToString, as applied by string concatenation, template literals and
    [parseInt]. *)
Definition ToString (v : value) : string :=
  match v with
  | Undefined => "undefined"
  | Null => "null"
  | Bool true => "true"
  | Bool false => "false"
  | Num n => string_of_Z n
  | Str s => s
  end.

(** [a || b] *)
Definition js_or (a b : value) : value := if truthy a then a else b.

(** [v + s] for a string [s]: string concatenation. *)
Definition js_concat (v : value) (s : string) : value := Str (ToString v +:+ s).

(** *** parseInt (radix argument absent) *)

Definition is_white_space (c : ascii) : bool :=
  let n := nat_of_ascii c in
  (Nat.eqb n 9 || Nat.eqb n 10 || Nat.eqb n 11 || Nat.eqb n 12 ||
   Nat.eqb n 13 || Nat.eqb n 32 || Nat.eqb n 160)%bool.

Fixpoint trim_start (s : string) : string :=
  match s with
  | String c s' => if is_white_space c then trim_start s' else s
  | EmptyString => s
  end.

Definition digit_value (c : ascii) : option Z :=
  let n := Z.of_nat (nat_of_ascii c) in
  if (48 <=? n) && (n <=? 57) then Some (n - 48)
  else if (97 <=? n) && (n <=? 122) then Some (n - 87)
  else if (65 <=? n) && (n <=? 90) then Some (n - 55)
  else None.

(** The longest prefix of radix-[R] digits, read as a number; [acc] is
    [None] until a first digit has been seen. *)
Fixpoint parse_digits (R : Z) (s : string) (acc : option Z) : option Z :=
  match s with
  | EmptyString => acc
  | String c s' =>
      match digit_value c with
      | Some d =>
          if d <? R then parse_digits R s' (Some (default 0 acc * R + d))
          else acc
      | None => acc
      end
  end.

(** [None] is NaN. *)
Definition parseInt (s : string) : option Z :=
  let s1 := trim_start s in
  let '(sign, s2) :=
    match s1 with
    | String "-" r => (-1, r)
    | String "+" r => (1, r)
    | _ => (1, s1)
    end in
  let '(R, s3) :=
    match s2 with
    | String "0" (String "x" r) => (16, r)
    | String "0" (String "X" r) => (16, r)
    | _ => (10, s2)
    end in
  match parse_digits R s3 None with
  | Some m => Some (sign * m)
  | None => None
  end.

(** ** Records and the persisted state *)

Record item : Type := Item {
  id : Z;
  inventory_name : value;
  description : value;
  photo_filename : option string;   (* [None]: null or absent *)
  created_at : value;
  photo_url : value
}.

#[global] Instance item_eq_dec : EqDecision item.
Proof. solve_decision. Defined.

Definition set_inventory_name (v : value) (it : item) : item :=
  Item (id it) v (description it) (photo_filename it) (created_at it) (photo_url it).
Definition set_description (v : value) (it : item) : item :=
  Item (id it) (inventory_name it) v (photo_filename it) (created_at it) (photo_url it).
Definition set_photo_filename (v : option string) (it : item) : item :=
  Item (id it) (inventory_name it) (description it) v (created_at it) (photo_url it).
Definition set_photo_url (v : value) (it : item) : item :=
  Item (id it) (inventory_name it) (description it) (photo_filename it) (created_at it) v.

(** The state of [DATA_FILE]. *)
Inductive data_file_state : Type :=
| Absent                       (* fs.access rejects *)
| Unparsable                   (* JSON.parse throws *)
| Stored (inv : list item).    (* JSON.stringify of [inv] *)

Record world : Type := World {
  data_file : data_file_state;
  photos : gset string          (* names of the files of the photo directory *)
}.

(** What the platform decides while one request is served. *)
Record env : Type := Env {
  write_ok : bool;     (* does fs.writeFile on DATA_FILE resolve? *)
  now : Z;             (* Date.now() *)
  random : Z;          (* Math.round(Math.random() * 1e9) *)
  iso_now : string;    (* new Date().toISOString() *)
  write_opened : bool  (* a rejected fs.writeFile: had it opened the file? *)
}.

(** The two variants of the service.  [main.js] keeps the photos in
    [photos/] under the script's directory; the Swagger variant keeps them
    in the directory given with [-c], an absolute path or not. *)
Inductive variant : Type :=
| main_js                              (* stores created_at *)
| swagger_js (absolute_cache : bool).  (* does not *)

(** ** The handlers' monad *)

Definition M (A : Type) : Type := world -> A * world.

Definition ret {A} (a : A) : M A := fun w => (a, w).
Definition bind {A B} (m : M A) (k : A -> M B) : M B :=
  fun w => let '(a, w') := m w in k a w'.

Declare Scope js_scope.
Delimit Scope js_scope with js.
Notation "'let*' x := m 'in' k" := (bind m (fun x => k))
  (at level 10, x name, m at level 100, k at level 200, only parsing) : js_scope.
Notation "m ;; k" := (bind m (fun _ => k))
  (at level 100, k at level 200, right associativity, only parsing) : js_scope.

Local Open Scope js_scope.

(** ** Record store *)

(** What a call of the platform on [DATA_FILE] comes to. *)
Inductive outcome (A : Type) : Type :=
| Resolved (a : A)
| Rejected.
Arguments Resolved {A} a.
Arguments Rejected {A}.

(** [fs.access(DATA_FILE)] *)
Definition fs_access (w : world) : outcome unit :=
  match data_file w with
  | Absent => Rejected
  | _ => Resolved tt
  end.

(** [fs.readFile(DATA_FILE, "utf8")]: the text of the file, kept as the
    state it was written in. *)
Definition fs_readFile (w : world) : outcome data_file_state :=
  match data_file w with
  | Absent => Rejected
  | text => Resolved text
  end.

(** [JSON.parse(data)] *)
Definition JSON_parse (data : data_file_state) : outcome (list item) :=
  match data with
  | Stored inv => Resolved inv
  | _ => Rejected
  end.

(** [try { access; readFile; return JSON.parse } catch { return [] }] *)
Definition readInventory : M (list item) :=
  fun w =>
    match fs_access w with
    | Rejected => ([], w)
    | Resolved _ =>
        match fs_readFile w with
        | Rejected => ([], w)
        | Resolved data =>
            match JSON_parse data with
            | Rejected => ([], w)
            | Resolved inventory => (inventory, w)
            end
        end
    end.

(** [Math.max(...l)] for a non-empty [l] ([x] is its first element). *)
Definition Math_max (x : Z) (l : list Z) : Z := foldl Z.max x l.

(** What [getNextId] computes from the array it has read. *)
Definition next_id (inventory : list item) : Z :=
  match inventory with
  | [] => 1
  | it :: rest => Math_max (id it) (id <$> rest) + 1
  end.

Definition getNextId : M Z :=
  let* inventory := readInventory in
  ret (next_id inventory).

(** [fs.writeFile(DATA_FILE, JSON.stringify(data, null, 2))] opens the file
    for writing, which empties it, and then writes the text.  A write
    rejected at the open leaves the file as it was; one rejected later
    leaves the empty file or a proper prefix of the text, neither of which
    [JSON.parse] accepts. *)
Definition fs_writeFile (e : env) (data : list item) (w : world) : outcome unit * world :=
  if write_ok e then (Resolved tt, World (Stored data) (photos w))
  else if write_opened e then (Rejected, World Unparsable (photos w))
  else (Rejected, w).

(** [try { writeFile; return true } catch { return false }] *)
Definition writeInventory (e : env) (data : list item) : M bool :=
  fun w =>
    match fs_writeFile e data w with
    | (Resolved _, w') => (true, w')
    | (Rejected, w') => (false, w')
    end.

(** ** Photo store and the upload middleware *)

(** The [photo] part of a multipart request. *)
Record upload : Type := Upload {
  mimetype : string;   (* declared content type *)
  size : Z;            (* bytes *)
  extname : string     (* path.extname(file.originalname) *)
}.

Inductive error : Type :=
| MulterError (code : string)
| Error (message : string).

Definition fileSize : Z := 5 * 1024 * 1024.

Definition fileFilter (f : upload) : bool := String.prefix "image/" (mimetype f).

(** [storage.filename] *)
Definition uniqueName (e : env) (f : upload) : string :=
  string_of_Z (now e) +:+ "-" +:+ string_of_Z (random e) +:+ extname f.

Definition store_photo (name : string) : M unit :=
  fun w => (tt, World (data_file w) ({[name]} ∪ photos w)).

(** [fs.access(p)] then [fs.unlink(p)] inside [try {} catch {}]: a file
    that is not there is passed over; one that is there is removed. *)
Definition try_unlink (name : string) : M unit :=
  fun w => (tt, World (data_file w) (photos w ∖ {[name]})).

Definition photo_exists (name : string) : M bool :=
  fun w => (bool_decide (name ∈ photos w), w).

(** [upload.single("photo")]: the filter is asked when the part starts;
    then the disk storage writes the part to the file of the generated
    name, replacing a file of that name.  When the size limit strikes, the
    file is removed again; otherwise it stays in the photo directory and
    [req.file.filename] is its name. *)
Definition upload_single (e : env) (f : option upload) : M (error + option string) :=
  match f with
  | None => ret (inr None)
  | Some f =>
      if negb (fileFilter f) then ret (inl (Error "Only images are allowed"))
      else
        let name := uniqueName e f in
        store_photo name ;;
        if fileSize <? size f then
          try_unlink name ;;
          ret (inl (MulterError "LIMIT_FILE_SIZE"))
        else ret (inr (Some name))
  end.

(** ** Requests and responses *)

Inductive method : Type := GET | HEAD | POST | PUT | DELETE | PATCH.

#[global] Instance method_eq_dec : EqDecision method.
Proof. solve_decision. Defined.

Module Body.
(** [req.body], whichever parser filled it. *)
Record t : Type := Make {
  inventory_name : value;
  description : value;
  id : value;
  has_photo : value
}.
Definition empty : t := Make Undefined Undefined Undefined Undefined.
End Body.

Record request : Type := Request {
  req_method : method;
  path : list string;          (* the segments of the URL's path, without escapes *)
  body : Body.t;
  photo_part : option upload   (* the multipart part named photo *)
}.

(** What a handler hands to [res.json] or [res.sendFile]. *)
Inductive payload : Type :=
| ErrorJson (error : string)       (* { error } *)
| MessageJson (message : string) (inventory : option item)
                                   (* { message, inventory }; [None]: undefined *)
| ItemJson (it : item)
| ListJson (l : list item)
| PhotoFile (name : string) (content_type : string)   (* res.sendFile *)
| Page (name : string)             (* res.sendFile of a form *)
| DefaultErrorPage.                (* Express's final handler *)

Record response : Type := Response {
  status : Z;
  json : payload
}.

#[global] Instance payload_eq_dec : EqDecision payload.
Proof. solve_decision. Defined.

#[global] Instance response_eq_dec : EqDecision response.
Proof. solve_decision. Defined.

(** [`/inventory/${item.id}/photo`] *)
Definition photo_path (it : item) : string :=
  "/inventory/" +:+ string_of_Z (id it) +:+ "/photo".

(** Truthiness of [item.photo_filename]. *)
Definition has_photo_filename (it : item) : bool :=
  match photo_filename it with
  | Some name => truthy (Str name)
  | None => false
  end.

(** [item.photo_filename ? `/inventory/${item.id}/photo` : null] *)
Definition derived_photo_url (it : item) : value :=
  if has_photo_filename it then Str (photo_path it) else Null.

(** [(item) => item.id === parseInt(id)] *)
Definition has_id (k : option Z) (it : item) : bool :=
  match k with
  | Some n => id it =? n
  | None => false
  end.

(** [Array.prototype.findIndex]; [None] is -1. *)
Fixpoint findIndex {A} (p : A -> bool) (l : list A) : option nat :=
  match l with
  | [] => None
  | x :: l' => if p x then Some 0%nat else S <$> findIndex p l'
  end.

(** [Array.prototype.find]; [None] is undefined. *)
Fixpoint find {A} (p : A -> bool) (l : list A) : option A :=
  match l with
  | [] => None
  | x :: l' => if p x then Some x else find p l'
  end.

(** ** Request handlers *)

Definition respond (st : Z) (p : payload) : M response := ret (Response st p).

(** [req.params.id] *)
Definition param_id (params : list string) : string := default "" (head params).

Definition handler : Type := env -> request -> list string -> option string -> M response.

(** The object literal bound to [newItem] in [/register]. *)
Definition newItem (v : variant) (e : env) (req : request)
    (file : option string) (new_id : Z) : item :=
  {| id := new_id;
     inventory_name := Body.inventory_name (body req);
     description := js_or (Body.description (body req)) (Str "");
     photo_filename := file;
     created_at := match v with
                   | main_js => Str (iso_now e)
                   | swagger_js _ => Undefined
                   end;
     photo_url := Undefined |}.

(** [app.post("/register", upload.single("photo"), ...)]; [file] is
    [req.file.filename] when a photo came with the request. *)
Definition post_register (v : variant) : handler := fun e req _ file =>
  let inventory_name := Body.inventory_name (body req) in
  if negb (truthy inventory_name) then respond 400 (ErrorJson "Name is required")
  else
    let* inventory := readInventory in
    let* new_id := getNextId in
    let newItem := newItem v e req file new_id in
    let inventory := (inventory ++ [newItem])%list in
    let* ok := writeInventory e inventory in
    if negb ok then respond 500 (ErrorJson "Data save error")
    else respond 201 (MessageJson "Device registered successfully" (Some newItem)).

(** [app.get("/inventory", ...)] *)
Definition get_inventory : handler := fun _ _ _ _ =>
  let* inventory := readInventory in
  let inventoryWithPhotoUrls :=
    (fun item => set_photo_url (derived_photo_url item) item) <$> inventory in
  respond 200 (ListJson inventoryWithPhotoUrls).

(** [app.get("/inventory/:id", ...)]: the assignment to [item.photo_url]
    changes the array read for this request, which is then dropped. *)
Definition get_inventory_id : handler := fun _ _ params _ =>
  let id := param_id params in
  let* inventory := readInventory in
  match find (has_id (parseInt id)) inventory with
  | None => respond 404 (ErrorJson "Device not found")
  | Some item =>
      let item := set_photo_url (derived_photo_url item) item in
      respond 200 (ItemJson item)
  end.

(** The two guarded assignments of [PUT /inventory/:id]:
    [if (f !== undefined) inventory[itemIndex].f = f]. *)
Definition assign_fields (b : Body.t) (itemIndex : nat) (inventory : list item)
    : list item :=
  let inventory :=
    if decide (Body.inventory_name b <> Undefined)
    then alter (set_inventory_name (Body.inventory_name b)) itemIndex inventory
    else inventory in
  if decide (Body.description b <> Undefined)
  then alter (set_description (Body.description b)) itemIndex inventory
  else inventory.

(** [app.put("/inventory/:id", ...)] *)
Definition put_inventory_id : handler := fun e req params _ =>
  let id := param_id params in
  let* inventory := readInventory in
  match findIndex (has_id (parseInt id)) inventory with
  | None => respond 404 (ErrorJson "Device not found")
  | Some itemIndex =>
      let inventory := assign_fields (body req) itemIndex inventory in
      let* ok := writeInventory e inventory in
      if negb ok then respond 500 (ErrorJson "Data save error")
      else respond 200 (MessageJson "Device updated successfully"
                                    (inventory !! itemIndex))
  end.

(** [res.sendFile(photoPath)] throws before it sends anything when
    [photoPath] is not absolute.  [main.js] joins the path from
    [__dirname], the Swagger variant from [options.cache]. *)
Definition sendFile_throws (v : variant) : bool :=
  match v with
  | main_js => false
  | swagger_js absolute_cache => negb absolute_cache
  end.

(** [app.get("/inventory/:id/photo", ...)]; [fs.access] and [res.sendFile]
    stand in one [try], whose [catch] answers 404. *)
Definition get_inventory_id_photo (v : variant) : handler := fun _ _ params _ =>
  let id := param_id params in
  let* inventory := readInventory in
  match find (has_id (parseInt id)) inventory with
  | None => respond 404 (ErrorJson "Photo not found")
  | Some item =>
      match photo_filename item with
      | Some name =>
          if negb (truthy (Str name)) then respond 404 (ErrorJson "Photo not found")
          else
            let* found := photo_exists name in
            if found && negb (sendFile_throws v)
            then respond 200 (PhotoFile name "image/jpeg")
            else respond 404 (ErrorJson "Photo file not found")
      | None => respond 404 (ErrorJson "Photo not found")
      end
  end.

(** [if (oldPhoto) { try { access; unlink } catch {} }] *)
Definition unlink_photo_of (it : option item) : M unit :=
  match it ≫= photo_filename with
  | Some name => if truthy (Str name) then try_unlink name else ret tt
  | None => ret tt
  end.

(** [app.put("/inventory/:id/photo", upload.single("photo"), ...)] *)
Definition put_inventory_id_photo : handler := fun e _ params file =>
  let id := param_id params in
  match file with
  | None => respond 400 (ErrorJson "No photo provided")
  | Some filename =>
      let* inventory := readInventory in
      match findIndex (has_id (parseInt id)) inventory with
      | None => respond 404 (ErrorJson "Device not found")
      | Some itemIndex =>
          unlink_photo_of (inventory !! itemIndex) ;;
          let inventory := alter (set_photo_filename (Some filename)) itemIndex inventory in
          let* ok := writeInventory e inventory in
          if negb ok then respond 500 (ErrorJson "Data save error")
          else respond 200 (MessageJson "Photo updated successfully"
                                        (inventory !! itemIndex))
      end
  end.

(** [app.delete("/inventory/:id", ...)] *)
Definition delete_inventory_id : handler := fun e _ params _ =>
  let id := param_id params in
  let* inventory := readInventory in
  match findIndex (has_id (parseInt id)) inventory with
  | None => respond 404 (ErrorJson "Device not found")
  | Some itemIndex =>
      let deletedItem := inventory !! itemIndex in
      unlink_photo_of deletedItem ;;
      let inventory := delete itemIndex inventory in
      let* ok := writeInventory e inventory in
      if negb ok then respond 500 (ErrorJson "Data save error")
      else respond 200 (MessageJson "Device deleted successfully" deletedItem)
  end.

(** The text appended by [/search]: a line feed, then the photo reference. *)
Definition photo_marker (it : item) : string :=
  String "010" ("[Photo: " +:+ photo_path it +:+ "]").

(** [app.post("/search", ...)] *)
Definition post_search : handler := fun _ req _ _ =>
  let id := Body.id (body req) in
  let has_photo := Body.has_photo (body req) in
  if negb (truthy id) then respond 400 (ErrorJson "ID is required")
  else
    let* inventory := readInventory in
    match find (has_id (parseInt (ToString id))) inventory with
    | None => respond 404 (ErrorJson "Device not found")
    | Some item =>
        let result := item in
        let result :=
          if bool_decide (has_photo = Str "true") && has_photo_filename item
          then set_description (js_concat (description result) (photo_marker item)) result
          else result in
        let result := set_photo_url (derived_photo_url item) result in
        respond 200 (ItemJson result)
    end.

Definition send_page (name : string) : handler := fun _ _ _ _ =>
  respond 200 (Page name).

(** The error-handling middleware registered with [app.use]; [None] is
    [next(error)]. *)
Definition multer_error_middleware (err : error) : option response :=
  match err with
  | MulterError code =>
      if String.eqb code "LIMIT_FILE_SIZE"
      then Some (Response 400 (ErrorJson "File too large. Maximum 5MB"))
      else None
  | Error _ => None
  end.

Definition method_not_allowed : M response :=
  respond 405 (ErrorJson "Method Not Allowed").

(** ** The application: Express's layer stack

    Layers are tried in the order of their registration.  A layer that
    fails passes its error on with [next(err)]; from then on only the
    error-handling layers registered _after_ it are tried, and when none
    answers, Express's final handler does, with the error's [status] when
    it has one and 500 otherwise (neither a [MulterError] nor a plain
    [Error] has one). *)

Inductive seg : Type :=
| Lit (s : string)
| Param.

Definition to_lower (c : ascii) : ascii :=
  let n := nat_of_ascii c in
  if (Nat.leb 65 n && Nat.leb n 90)%bool then ascii_of_nat (n + 32) else c.

Fixpoint lower (s : string) : string :=
  match s with
  | EmptyString => EmptyString
  | String c s' => String (to_lower c) (lower s')
  end.

(** Routing is not strict: one slash at the end of the path is passed
    over ([/inventory/1/] is [/inventory/1]). *)
Fixpoint strip_slash (p : list string) : list string :=
  match p with
  | [] => []
  | x :: p' =>
      match p' with
      | [] => if String.eqb x "" then [] else [x]
      | _ => x :: strip_slash p'
      end
  end.

(** Literal segments match without regard to case, a parameter matches a
    segment that is not empty; a match yields the values of the
    parameters. *)
Fixpoint match_segments (pat : list seg) (p : list string) : option (list string) :=
  match pat, p with
  | [], [] => Some []
  | Lit s :: pat', x :: p' =>
      if String.eqb (lower s) (lower x) then match_segments pat' p' else None
  | Param :: pat', x :: p' =>
      if String.eqb x "" then None else cons x <$> match_segments pat' p'
  | _, _ => None
  end.

Definition match_path (pat : list seg) (p : list string) : option (list string) :=
  match_segments pat (strip_slash p).

(** [Route.prototype._handles_method]: a route for GET serves HEAD as well
    (no route of the application names HEAD). *)
Definition handles_method (m : method) (requested : method) : bool :=
  bool_decide (requested = m) ||
  (bool_decide (requested = HEAD) && bool_decide (m = GET)).

Inductive layer : Type :=
| Use (name : string)          (* a middleware that calls next() *)
| Mount (prefix name : string) (* app.use(prefix, ...) answering below prefix *)
| UseError (h : error -> option response)
| Route (m : method) (pat : list seg) (multipart : bool) (h : handler)
| Respond (h : M response).

Definition final_handler (err : option error) : M response :=
  match err with
  | Some _ => respond 500 DefaultErrorPage
  | None => respond 404 DefaultErrorPage
  end.

Fixpoint dispatch (stack : list layer) (err : option error)
    (e : env) (req : request) : M response :=
  match stack with
  | [] => final_handler err
  | l :: rest =>
      match err, l with
      | Some er, UseError h =>
          match h er with
          | Some r => ret r
          | None => dispatch rest (Some er) e req
          end
      | Some er, _ => dispatch rest (Some er) e req
      | None, Use _ => dispatch rest None e req
      | None, UseError _ => dispatch rest None e req
      | None, Mount prefix name =>
          match path req with
          | x :: _ =>
              if String.eqb (lower prefix) (lower x) then respond 200 (Page name)
              else dispatch rest None e req
          | [] => dispatch rest None e req
          end
      | None, Respond h => h
      | None, Route m pat multipart h =>
          if handles_method m (req_method req) then
            match match_path pat (path req) with
            | Some params =>
                if multipart then
                  let* r := upload_single e (photo_part req) in
                  match r with
                  | inl er => dispatch rest (Some er) e req
                  | inr file => h e req params file
                  end
                else h e req params None
            | None => dispatch rest None e req
            end
          else dispatch rest None e req
      end
  end.

(** The layers of the two files, in source order.  [express.static(".")]
    only answers GET and HEAD for files of the working directory, which the
    API paths do not name. *)
Definition routes (v : variant) : list layer :=
  [ Route GET [Lit "RegisterForm.html"] false (send_page "RegisterForm.html");
    Route GET [Lit "SearchForm.html"] false (send_page "SearchForm.html");
    Route POST [Lit "register"] true (post_register v);
    Route GET [Lit "inventory"] false get_inventory;
    Route GET [Lit "inventory"; Param] false get_inventory_id;
    Route PUT [Lit "inventory"; Param] false put_inventory_id;
    Route GET [Lit "inventory"; Param; Lit "photo"] false (get_inventory_id_photo v);
    Route PUT [Lit "inventory"; Param; Lit "photo"] true put_inventory_id_photo;
    Route DELETE [Lit "inventory"; Param] false delete_inventory_id;
    Route POST [Lit "search"] false post_search;
    Respond method_not_allowed ].

Definition app (v : variant) : list layer :=
  match v with
  | main_js =>
      [ Use "express.json"; Use "express.urlencoded"; Use "express.static";
        UseError multer_error_middleware ] ++ routes v
  | swagger_js _ =>
      [ Mount "docs" "swagger-ui";
        Use "express.json"; Use "express.urlencoded";
        UseError multer_error_middleware ] ++ routes v
  end%list.

Definition serve (v : variant) (e : env) (req : request) : M response :=
  dispatch (app v) None e req.

(** ** Runs of the service *)

Definition empty_store : world := World Absent ∅.

(** The records a request would read. *)
Definition inventory_of (w : world) : list item := fst (readInventory w).

(** Serving a sequence of requests, one after the other; the responses come
    back in the requests' order. *)
Fixpoint run (v : variant) (t : list (env * request)) (w : world)
    : list response * world :=
  match t with
  | [] => ([], w)
  | (e, req) :: t' =>
      let '(r, w1) := serve v e req w in
      let '(rs, w2) := run v t' w1 in
      (r :: rs, w2)
  end.

(** * Specification vocabulary *)

(** Frequently used requests. *)
Definition good_env : env :=
  Env true 1700000000000 123456789 "2025-01-01T00:00:00.000Z" false.
(** A disk that refuses to open the record file for writing. *)
Definition bad_disk : env :=
  Env false 1700000000000 123456789 "2025-01-01T00:00:00.000Z" false.
(** A disk that fails while the record file is being written. *)
Definition full_disk : env :=
  Env false 1700000000000 123456789 "2025-01-01T00:00:00.000Z" true.

Definition register_req (name : value) (desc : value) (f : option upload) : request :=
  Request POST ["register"] (Body.Make name desc Undefined Undefined) f.
Definition list_req : request := Request GET ["inventory"] Body.empty None.
Definition get_req (i : string) : request := Request GET ["inventory"; i] Body.empty None.
Definition update_req (i : string) (name desc : value) : request :=
  Request PUT ["inventory"; i] (Body.Make name desc Undefined Undefined) None.
Definition put_photo_req (i : string) (f : option upload) : request :=
  Request PUT ["inventory"; i; "photo"] Body.empty f.
Definition delete_req (i : string) : request :=
  Request DELETE ["inventory"; i] Body.empty None.
Definition search_req (i has_photo : value) : request :=
  Request POST ["search"] (Body.Make Undefined Undefined i has_photo) None.

Definition png : upload := Upload "image/png" 2048 ".png".

(** ** Well-formed stores *)

(** What every record written by the service satisfies. *)
Record well_formed_item (it : item) : Prop := {
  wf_photo_url : photo_url it = Undefined;
  wf_photo_filename : photo_filename it <> Some "";
  wf_id : 1 <= id it
}.

Record well_formed (w : world) : Prop := {
  wf_distinct : NoDup (id <$> inventory_of w);
  wf_items : Forall well_formed_item (inventory_of w)
}.

(** ** Post-conditions of the layer stack *)

(** What [req.file] can be when a handler starts. *)
Definition uploaded (e : env) (req : request) (file : option string) : Prop :=
  file = None \/
  exists f, photo_part req = Some f /\ fileFilter f = true /\
            size f <= fileSize /\ file = Some (uniqueName e f).

(** What a layer owes so that [Q] holds of the answer to [req], when [I]
    holds of the world each time a layer starts. *)
Definition layer_post (e : env) (req : request)
    (I : world -> Prop) (Q : response * world -> Prop) (l : layer) : Prop :=
  match l with
  | Use _ => True
  | Mount _ name => forall w, I w -> Q (Response 200 (Page name), w)
  | UseError h => forall er r w, I w -> h er = Some r -> Q (r, w)
  | Route m pat multipart h =>
      handles_method m (req_method req) = true ->
      forall params, match_path pat (path req) = Some params ->
        (multipart = true ->
           forall f w, photo_part req = Some f -> I w ->
                       I (snd (store_photo (uniqueName e f) w)) /\
                       I (snd (try_unlink (uniqueName e f) w))) /\
        (forall file w, uploaded e req file -> (multipart = false -> file = None) ->
                        I w -> Q (h e req params file w))
  | Respond h => forall w, I w -> Q (h w)
  end.

(** ** Ids assigned and ids deleted *)

(** The id a response reports as newly assigned: the 201 of [/register]. *)
Definition assigned_id (r : response) : option Z :=
  match json r with
  | MessageJson _ (Some it) => if status r =? 201 then Some (id it) else None
  | _ => None
  end.

(** The id a response reports as deleted. *)
Definition deleted_id (r : response) : option Z :=
  match json r with
  | MessageJson m (Some it) =>
      if String.eqb m "Device deleted successfully" then Some (id it) else None
  | _ => None
  end.

(** No response assigns an id that an earlier response reported deleted. *)
Definition never_reused (rs : list response) : Prop :=
  forall (i j : nat) (k : Z), (i < j)%nat ->
    rs !! i ≫= deleted_id = Some k -> rs !! j ≫= assigned_id <> Some k.

Definition ids_distinct (w : world) : Prop := NoDup (id <$> inventory_of w).

(** ** The id rule of the specification *)

(** [m] is the greatest element of [l]. *)
Definition is_max (m : Z) (l : list Z) : Prop :=
  m ∈ l /\ forall x, x ∈ l -> x <= m.

(** "1 if empty, else max(existing ids) + 1". *)
Definition nextId_spec (records : list item) (k : Z) : Prop :=
  (records = [] -> k = 1) /\
  (records <> [] -> is_max (k - 1) (id <$> records)).

(** A registration that carries a name and nothing else. *)
Definition only_name (req : request) : Prop :=
  req_method req = POST /\
  is_Some (match_path [Lit "register"] (path req)) /\
  truthy (Body.inventory_name (body req)) = true /\
  Body.description (body req) = Undefined /\
  photo_part req = None.

(** ** Updating a record *)

(** A field present in the body overwrites; an absent one ([undefined])
    leaves the stored value. *)
Definition overwrite (sent stored : value) : value :=
  match sent with
  | Undefined => stored
  | _ => sent
  end.

(** The record [PUT /inventory/:id] is to leave in place of [it]. *)
Definition updated (b : Body.t) (it : item) : item :=
  {| id := id it;
     inventory_name := overwrite (Body.inventory_name b) (inventory_name it);
     description := overwrite (Body.description b) (description it);
     photo_filename := photo_filename it;
     created_at := created_at it;
     photo_url := photo_url it |}.

(** ** Saving *)

(** What a rejected write of the record file leaves behind. *)
Definition failed_write (e : env) (w : world) : world :=
  if write_opened e then World Unparsable (photos w) else w.

(** The same platform decisions, with a disk that accepts or refuses the
    write. *)
Definition with_write_ok (b : bool) (e : env) : env :=
  Env b (now e) (random e) (iso_now e) (write_opened e).

(** The answers of the four mutating operations once they have saved:
    [{ message, inventory }]. *)
Definition saved (r : response) : Prop :=
  exists m it, json r = MessageJson m it.

(** What a layer owes so that a request which would have been saved on a
    working disk is answered 500 "Data save error" on a failing one. *)
Definition layer_save_error (e : env) (req : request) (l : layer) : Prop :=
  match l with
  | Use _ | Mount _ _ => True
  | UseError h => forall er r, h er = Some r -> ~ saved r
  | Route _ _ _ h =>
      forall params file w,
        saved (fst (h (with_write_ok true e) req params file w)) ->
        fst (h e req params file w) = Response 500 (ErrorJson "Data save error")
  | Respond h => forall w, ~ saved (fst (h w))
  end.

(** ** Vocabulary of the further properties *)

(** An upload the middleware lets through. *)
Definition accepted (f : upload) : Prop :=
  fileFilter f = true /\ size f <= fileSize.

(** Some stored record carries the id [k]. *)
Definition stored_id (w : world) (k : Z) : Prop :=
  exists it, it ∈ inventory_of w /\ id it = k.

(** The route [l] does not take the request. *)
Definition passes_over (req : request) (l : layer) : Prop :=
  match l with
  | Route m pat _ _ =>
      handles_method m (req_method req) = false \/ match_path pat (path req) = None
  | _ => True
  end.

(** The URL of a path: each segment after a slash. *)
Definition url_of (p : list string) : string :=
  foldr (fun seg rest => "/" +:+ seg +:+ rest) "" p.

(** No character of [s] is a hyphen. *)
Fixpoint dash_free (s : string) : bool :=
  match s with
  | EmptyString => true
  | String c s' => negb (Ascii.eqb c "-") && dash_free s'
  end.

(** How many of the responses are registrations ([201]). *)
Definition registrations (rs : list response) : Z :=
  Z.of_nat (length (filter (fun r => is_Some (assigned_id r)) rs)).

(** The answer of an operation whose save failed. *)
Definition save_error : response := Response 500 (ErrorJson "Data save error").

(** How one request changes the list of stored ids, read off its
    response: a registration appends the id it assigned, a deletion drops
    the id it reports, a save that failed after the file was opened leaves
    no id, anything else leaves the list as it was. *)
Definition ids_step (e : env) (w : world) (rw : response * world) : Prop :=
  let ids := id <$> inventory_of w in
  let ids1 := id <$> inventory_of (snd rw) in
  match assigned_id (fst rw), deleted_id (fst rw) with
  | Some k, _ => ids1 = (ids ++ [k])%list
  | None, Some k => exists n, ids !! n = Some k /\ ids1 = delete n ids
  | None, None =>
      ids1 = if bool_decide (fst rw = save_error) && write_opened e then [] else ids
  end.

(** A record that had a photo and is still stored still has one. *)
Definition photo_kept (w w1 : world) : Prop :=
  forall it it1, it ∈ inventory_of w -> it1 ∈ inventory_of w1 ->
    id it = id it1 -> photo_filename it <> None -> photo_filename it1 <> None.

(** The record carries a name and a description. *)
Definition complete (it : item) : Prop :=
  inventory_name it <> Undefined /\ description it <> Undefined.

(** * Proof tools *)

(** Unfolding a handler down to the world it returns. *)
Ltac run_handler :=
  cbv beta iota zeta delta
    [respond bind ret getNextId readInventory writeInventory unlink_photo_of
     try_unlink photo_exists store_photo inventory_of
     fs_access fs_readFile JSON_parse fs_writeFile] in *;
  simpl in *.

(** The obligations of [dispatch_post], one per layer of the application. *)
Ltac stack_obligations :=
  unfold app, routes, List.app;
  repeat (apply List.Forall_cons); try apply List.Forall_nil;
  unfold layer_post.

(** * Properties *)

(** ** Arrays *)

Section arrays.
Context {A : Type}.
Implicit Types (p : A -> bool) (l : list A).

Lemma findIndex_Some p l i :
  findIndex p l = Some i ->
  exists x, l !! i = Some x /\ p x = true /\
            forall j y, (j < i)%nat -> l !! j = Some y -> p y = false.
Proof.
  revert i. induction l as [|a l IH]; intros i; simpl; [discriminate|].
  destruct (p a) eqn:Hpa.
  - intros [= <-]. exists a. repeat split; auto. intros j y Hj. lia.
  - destruct (findIndex p l) as [k|] eqn:Hk; simpl; [|discriminate].
    intros [= <-]. destruct (IH k eq_refl) as (x & Hx & Hpx & Hlt).
    exists x. repeat split; auto.
    intros [|j] y Hj; simpl.
    + intros [= <-]. exact Hpa.
    + apply Hlt. lia.
Qed.

Lemma findIndex_None p l :
  findIndex p l = None -> forall x, x ∈ l -> p x = false.
Proof.
  induction l as [|a l IH]; simpl; intros H x Hx.
  - inversion Hx.
  - destruct (p a) eqn:Hpa; [discriminate|].
    destruct (findIndex p l) eqn:Hk; [discriminate|].
    apply elem_of_cons in Hx as [->|Hx]; auto.
Qed.

(** [find] returns the element at the index [findIndex] returns. *)
Lemma find_findIndex p l : find p l = findIndex p l ≫= (l !!.).
Proof.
  induction l as [|a l IH]; simpl; [reflexivity|].
  destruct (p a); [reflexivity|]. rewrite IH.
  destruct (findIndex p l); reflexivity.
Qed.

Lemma find_Some p l x : find p l = Some x -> x ∈ l /\ p x = true.
Proof.
  rewrite find_findIndex. destruct (findIndex p l) as [i|] eqn:Hi; [|discriminate].
  simpl. intros Hx. apply findIndex_Some in Hi as (y & Hy & Hp & _).
  assert (y = x) as -> by congruence.
  split; [eapply list_elem_of_lookup_2; eauto | exact Hp].
Qed.

Lemma find_None p l : find p l = None -> forall x, x ∈ l -> p x = false.
Proof.
  rewrite find_findIndex. destruct (findIndex p l) as [i|] eqn:Hi.
  - simpl. apply findIndex_Some in Hi as (y & Hy & _). congruence.
  - intros _. by apply findIndex_None.
Qed.
End arrays.

(** Among records with distinct ids, the scan for an id stops at the record
    that carries it. *)
Lemma findIndex_has_id (inv : list item) (i : nat) (it : item) :
  NoDup (id <$> inv) -> inv !! i = Some it ->
  findIndex (has_id (Some (id it))) inv = Some i.
Proof.
  intros Hnd Hi.
  destruct (findIndex (has_id (Some (id it))) inv) as [j|] eqn:Hj.
  - apply findIndex_Some in Hj as (x & Hx & Hp & _).
    simpl in Hp. apply Z.eqb_eq in Hp. f_equal.
    apply (NoDup_lookup (id <$> inv) j i (id it) Hnd);
      rewrite list_lookup_fmap; [rewrite Hx | rewrite Hi]; simpl; congruence.
  - eapply findIndex_None with (x := it) in Hj.
    + simpl in Hj. rewrite Z.eqb_refl in Hj. discriminate.
    + eapply list_elem_of_lookup_2; eauto.
Qed.

Lemma find_has_id (inv : list item) (it : item) :
  NoDup (id <$> inv) -> it ∈ inv -> find (has_id (Some (id it))) inv = Some it.
Proof.
  intros Hnd [i Hi]%list_elem_of_lookup_1.
  rewrite find_findIndex, (findIndex_has_id inv i it) by assumption. exact Hi.
Qed.

(** ** Math.max *)

Lemma Math_max_ge x l : x <= Math_max x l.
Proof.
  unfold Math_max. revert x. induction l as [|y l IH]; intros x; simpl; [lia|].
  specialize (IH (Z.max x y)). lia.
Qed.

Lemma Math_max_upper x l y : y ∈ l -> y <= Math_max x l.
Proof.
  unfold Math_max. revert x. induction l as [|z l IH]; intros x Hy; simpl.
  - inversion Hy.
  - apply elem_of_cons in Hy as [->|Hy]; [|by apply IH].
    pose proof (Math_max_ge (Z.max x z) l) as H. unfold Math_max in H. lia.
Qed.

Lemma Math_max_attained x l : Math_max x l ∈ x :: l.
Proof.
  unfold Math_max. revert x. induction l as [|z l IH]; intros x; simpl.
  - apply list_elem_of_here.
  - specialize (IH (Z.max x z)).
    apply elem_of_cons in IH as [IH|IH].
    + rewrite IH. destruct (Z.max_spec x z) as [[_ ->]|[_ ->]].
      * apply list_elem_of_further, list_elem_of_here.
      * apply list_elem_of_here.
    + by do 2 apply list_elem_of_further.
Qed.

(** ** Reasoning about the layer stack *)

Section dispatch_post.
Variables (e : env) (req : request).
Variable I : world -> Prop.
Variable Q : response * world -> Prop.

Lemma dispatch_post (stack : list layer) :
  (forall err w, I w -> Q (final_handler err w)) ->
  Forall (layer_post e req I Q) stack ->
  forall err w, I w -> Q (dispatch stack err e req w).
Proof.
  intros Hfinal Hstack. induction Hstack as [|l rest Hl _ IH]; intros err w Hw.
  - simpl. by apply Hfinal.
  - destruct err as [er|]; simpl.
    + destruct l; try by apply IH.
      destruct (h er) as [r|] eqn:Hh; [|by apply IH].
      eapply Hl; eauto.
    + destruct l as [name|prefix name|h|m pat multipart h|h]; simpl in Hl.
      * by apply IH.
      * destruct (path req) as [|x ?]; [by apply IH|].
        destruct (String.eqb _ _); [by apply Hl | by apply IH].
      * by apply IH.
      * destruct (handles_method m (req_method req)) eqn:Hm; [|by apply IH].
        destruct (match_path pat (path req)) as [params|] eqn:Hp; [|by apply IH].
        destruct (Hl eq_refl params eq_refl) as [Hstore Hh].
        destruct multipart.
        -- unfold bind, upload_single.
           destruct (photo_part req) as [f|] eqn:Hf.
           ++ destruct (fileFilter f) eqn:Hff; simpl; [|by apply IH].
              destruct (fileSize <? size f) eqn:Hsz; simpl.
              ** destruct (Hstore eq_refl f w eq_refl Hw) as [Hs _].
                 destruct (Hstore eq_refl f _ eq_refl Hs) as [_ Hu].
                 apply IH. exact Hu.
              ** apply Hh; [|discriminate|exact (proj1 (Hstore eq_refl f w eq_refl Hw))].
                 right. exists f. apply Z.ltb_ge in Hsz. auto.
           ++ simpl. apply Hh; auto. by left.
        -- apply Hh; auto. by left.
      * by apply Hl.
Qed.
End dispatch_post.

(** ** The next id *)

Lemma next_id_fresh (inv : list item) (it : item) : it ∈ inv -> id it < next_id inv.
Proof.
  destruct inv as [|a rest]; [inversion 1|]. simpl.
  intros [->|Hin]%elem_of_cons.
  - pose proof (Math_max_ge (id a) (id <$> rest)). lia.
  - pose proof (Math_max_upper (id a) (id <$> rest) (id it)
                  (list_elem_of_fmap_2 id _ _ Hin)). lia.
Qed.

Lemma next_id_positive (inv : list item) :
  Forall (fun it => 1 <= id it) inv -> 1 <= next_id inv.
Proof.
  destruct inv as [|a rest]; simpl; [lia|].
  intros [Ha _]%Forall_cons. pose proof (Math_max_ge (id a) (id <$> rest)). lia.
Qed.

Lemma well_formed_empty_store : well_formed empty_store.
Proof. split; simpl; constructor. Qed.

Lemma well_formed_stored (inv : list item) (ph : gset string) :
  NoDup (id <$> inv) -> Forall well_formed_item inv -> well_formed (World (Stored inv) ph).
Proof. intros. split; simpl; assumption. Qed.

(** The records read depend on the record file alone. *)
Lemma inventory_of_data_file (w : world) :
  inventory_of w = match data_file w with Stored inv => inv | _ => [] end.
Proof. destruct w as [[] ph]; reflexivity. Qed.

Lemma well_formed_photos (w : world) (ph : gset string) :
  well_formed w -> well_formed (World (data_file w) ph).
Proof.
  intros [H2 H3]. rewrite inventory_of_data_file in H2, H3.
  split; rewrite ?inventory_of_data_file; assumption.
Qed.

Lemma inventory_of_failed_write (e : env) (w : world) :
  inventory_of (failed_write e w) = if write_opened e then [] else inventory_of w.
Proof. unfold failed_write. by destruct (write_opened e). Qed.

Lemma photos_failed_write (e : env) (w : world) : photos (failed_write e w) = photos w.
Proof. unfold failed_write. by destruct (write_opened e). Qed.

Lemma well_formed_failed_write (e : env) (w : world) :
  well_formed w -> well_formed (failed_write e w).
Proof.
  intros Hw. unfold failed_write. destruct (write_opened e); [|exact Hw].
  split; simpl; constructor.
Qed.

Lemma uniqueName_nonempty (e : env) (f : upload) : uniqueName e f <> "".
Proof.
  unfold uniqueName. destruct (string_of_Z (now e)); discriminate.
Qed.

Lemma uploaded_nonempty (e : env) (req : request) (file : option string) :
  uploaded e req file -> file <> Some "".
Proof.
  intros [->|(f & _ & _ & _ & ->)]; [discriminate|].
  intros [= H]. by apply uniqueName_nonempty in H.
Qed.

Lemma inventory_of_stored (inv : list item) (ph : gset string) :
  inventory_of (World (Stored inv) ph) = inv.
Proof. reflexivity. Qed.

Lemma read_inventory_of (w : world) : readInventory w = (inventory_of w, w).
Proof. destruct w as [[] ph]; reflexivity. Qed.

Lemma unlink_photo_of_data_file (it : option item) (w : world) :
  data_file (snd (unlink_photo_of it w)) = data_file w.
Proof.
  unfold unlink_photo_of. destruct (it ≫= photo_filename) as [name|]; [|reflexivity].
  by destruct (truthy (Str name)).
Qed.

(** *** The handlers as functions of the records read *)

Lemma post_register_eq v e req params file w :
  post_register v e req params file w =
    if truthy (Body.inventory_name (body req)) then
      let inv := inventory_of w in
      let it := newItem v e req file (next_id inv) in
      if write_ok e
      then (Response 201 (MessageJson "Device registered successfully" (Some it)),
            World (Stored (inv ++ [it])) (photos w))
      else (Response 500 (ErrorJson "Data save error"), failed_write e w)
    else (Response 400 (ErrorJson "Name is required"), w).
Proof.
  destruct w as [df ph]. unfold post_register, failed_write.
  destruct (truthy _); [|reflexivity].
  run_handler. destruct df; destruct (write_ok e), (write_opened e); reflexivity.
Qed.

Lemma post_register_well_formed v e req params file w :
  file <> Some "" -> well_formed w ->
  well_formed (snd (post_register v e req params file w)).
Proof.
  intros Hfile Hw. rewrite post_register_eq.
  destruct (truthy _); [|exact Hw]. simpl.
  destruct (write_ok e); simpl; [|by apply well_formed_failed_write].
  destruct Hw as [Hnd Hit]. apply well_formed_stored.
  - rewrite fmap_app. apply NoDup_app. split; [exact Hnd|]. split.
    + intros x [it [-> Hin]]%list_elem_of_fmap_1 Hx. simpl in Hx.
      apply list_elem_of_singleton in Hx.
      pose proof (next_id_fresh _ _ Hin). lia.
    + apply NoDup_singleton.
  - apply Forall_app. split; [exact Hit|].
    apply Forall_singleton. split; simpl; auto.
    apply next_id_positive. eapply Forall_impl; [exact Hit|]. by intros ? [].
Qed.

Lemma put_inventory_id_eq e req params file w :
  put_inventory_id e req params file w =
    let inv := inventory_of w in
    match findIndex (has_id (parseInt (param_id params))) inv with
    | None => (Response 404 (ErrorJson "Device not found"), w)
    | Some i =>
        let inv' := assign_fields (body req) i inv in
        if write_ok e
        then (Response 200 (MessageJson "Device updated successfully" (inv' !! i)),
              World (Stored inv') (photos w))
        else (Response 500 (ErrorJson "Data save error"), failed_write e w)
    end.
Proof.
  destruct w as [df ph]. unfold put_inventory_id, failed_write. run_handler.
  destruct df; simpl; try reflexivity.
  destruct (findIndex _ inv); [|reflexivity].
  by destruct (write_ok e), (write_opened e).
Qed.

Lemma put_inventory_id_photo_eq e req params file w :
  put_inventory_id_photo e req params file w =
    match file with
    | None => (Response 400 (ErrorJson "No photo provided"), w)
    | Some filename =>
        let inv := inventory_of w in
        match findIndex (has_id (parseInt (param_id params))) inv with
        | None => (Response 404 (ErrorJson "Device not found"), w)
        | Some i =>
            let w1 := snd (unlink_photo_of (inv !! i) w) in
            let inv' := alter (set_photo_filename (Some filename)) i inv in
            if write_ok e
            then (Response 200 (MessageJson "Photo updated successfully" (inv' !! i)),
                  World (Stored inv') (photos w1))
            else (Response 500 (ErrorJson "Data save error"), failed_write e w1)
        end
    end.
Proof.
  destruct w as [df ph]. unfold put_inventory_id_photo, failed_write.
  destruct file as [filename|]; [|reflexivity]. run_handler.
  destruct df; simpl; try reflexivity.
  destruct (findIndex _ inv) as [i|]; [|reflexivity].
  destruct (inv !! i ≫= photo_filename) as [name|]; simpl.
  - destruct (negb (String.eqb name "")); by destruct (write_ok e), (write_opened e).
  - by destruct (write_ok e), (write_opened e).
Qed.

Lemma delete_inventory_id_eq e req params file w :
  delete_inventory_id e req params file w =
    let inv := inventory_of w in
    match findIndex (has_id (parseInt (param_id params))) inv with
    | None => (Response 404 (ErrorJson "Device not found"), w)
    | Some i =>
        let w1 := snd (unlink_photo_of (inv !! i) w) in
        if write_ok e
        then (Response 200 (MessageJson "Device deleted successfully" (inv !! i)),
              World (Stored (delete i inv)) (photos w1))
        else (Response 500 (ErrorJson "Data save error"), failed_write e w1)
    end.
Proof.
  destruct w as [df ph]. unfold delete_inventory_id, failed_write. run_handler.
  destruct df; simpl; try reflexivity.
  destruct (findIndex _ inv) as [i|]; [|reflexivity].
  destruct (inv !! i ≫= photo_filename) as [name|]; simpl.
  - destruct (negb (String.eqb name "")); by destruct (write_ok e), (write_opened e).
  - by destruct (write_ok e), (write_opened e).
Qed.

Lemma get_inventory_eq e req params file w :
  get_inventory e req params file w =
    (Response 200 (ListJson ((fun it => set_photo_url (derived_photo_url it) it)
                               <$> inventory_of w)), w).
Proof.
  destruct w as [df ph]. unfold get_inventory. run_handler. by destruct df.
Qed.

Lemma get_inventory_id_eq e req params file w :
  get_inventory_id e req params file w =
    match find (has_id (parseInt (param_id params))) (inventory_of w) with
    | None => (Response 404 (ErrorJson "Device not found"), w)
    | Some it => (Response 200 (ItemJson (set_photo_url (derived_photo_url it) it)), w)
    end.
Proof.
  destruct w as [df ph]. unfold get_inventory_id. run_handler.
  destruct df; simpl; try reflexivity. by destruct (find _ inv).
Qed.

Lemma post_search_eq e req params file w :
  post_search e req params file w =
    if truthy (Body.id (body req)) then
      match find (has_id (parseInt (ToString (Body.id (body req))))) (inventory_of w) with
      | None => (Response 404 (ErrorJson "Device not found"), w)
      | Some it =>
          let result :=
            if bool_decide (Body.has_photo (body req) = Str "true") && has_photo_filename it
            then set_description (js_concat (description it) (photo_marker it)) it
            else it in
          (Response 200 (ItemJson (set_photo_url (derived_photo_url it) result)), w)
      end
    else (Response 400 (ErrorJson "ID is required"), w).
Proof.
  destruct w as [df ph]. unfold post_search.
  destruct (truthy _); [|reflexivity]. run_handler.
  destruct df; simpl; try reflexivity. by destruct (find _ inv).
Qed.

Lemma get_inventory_id_photo_world v e req params file w :
  snd (get_inventory_id_photo v e req params file w) = w.
Proof.
  destruct w as [df ph]. unfold get_inventory_id_photo. run_handler.
  destruct df; simpl; try reflexivity.
  destruct (find _ inv) as [it|]; [|reflexivity].
  destruct (photo_filename it) as [name|]; [|reflexivity].
  destruct (negb (String.eqb name "")); simpl; [|reflexivity].
  by destruct (bool_decide _ && _).
Qed.

Lemma get_inventory_id_photo_eq v e req params file w :
  get_inventory_id_photo v e req params file w =
    (match find (has_id (parseInt (param_id params))) (inventory_of w) with
     | None => Response 404 (ErrorJson "Photo not found")
     | Some it =>
         match photo_filename it with
         | None => Response 404 (ErrorJson "Photo not found")
         | Some name =>
             if String.eqb name "" then Response 404 (ErrorJson "Photo not found")
             else if bool_decide (name ∈ photos w) && negb (sendFile_throws v)
                  then Response 200 (PhotoFile name "image/jpeg")
                  else Response 404 (ErrorJson "Photo file not found")
         end
     end, w).
Proof.
  destruct w as [df ph]. unfold get_inventory_id_photo. run_handler.
  destruct df; simpl; try reflexivity.
  destruct (find _ inv) as [it|]; [|reflexivity].
  destruct (photo_filename it) as [name|]; [|reflexivity].
  destruct (String.eqb name ""); simpl; [reflexivity|].
  by destruct (bool_decide _ && _).
Qed.

(** *** Every handler keeps the store well formed *)

Lemma assign_fields_ids b i inv : id <$> assign_fields b i inv = id <$> inv.
Proof.
  unfold assign_fields.
  assert (forall (f : item -> item) (l : list item),
            (forall x, id (f x) = id x) -> id <$> alter f i l = id <$> l) as Halter.
  { intros f l Hf. rewrite (list_fmap_alter id f (fun x => x)).
    - by apply list_alter_id.
    - apply Forall_forall. intros x _. apply Hf. }
  repeat case_decide; rewrite ?Halter; auto.
Qed.

Lemma assign_fields_well_formed b i inv :
  Forall well_formed_item inv -> Forall well_formed_item (assign_fields b i inv).
Proof.
  intros H. unfold assign_fields.
  repeat case_decide; repeat apply Forall_alter; auto; by intros x _ [].
Qed.

Lemma put_inventory_id_well_formed e req params file w :
  well_formed w -> well_formed (snd (put_inventory_id e req params file w)).
Proof.
  intros Hw. rewrite put_inventory_id_eq. simpl.
  destruct (findIndex _ _) as [i|]; [|exact Hw].
  destruct (write_ok e); [|by apply well_formed_failed_write]. destruct Hw as [Hnd Hit].
  apply well_formed_stored.
  - by rewrite assign_fields_ids.
  - by apply assign_fields_well_formed.
Qed.

Lemma unlink_photo_of_well_formed it w :
  well_formed w -> well_formed (snd (unlink_photo_of it w)).
Proof.
  intros Hw. unfold unlink_photo_of.
  destruct (it ≫= photo_filename) as [name|]; [|exact Hw].
  destruct (truthy (Str name)); [|exact Hw]. by apply well_formed_photos.
Qed.

Lemma put_inventory_id_photo_well_formed e req params file w :
  file <> Some "" -> well_formed w ->
  well_formed (snd (put_inventory_id_photo e req params file w)).
Proof.
  intros Hfile Hw. rewrite put_inventory_id_photo_eq.
  destruct file as [filename|]; [|exact Hw]. simpl.
  destruct (findIndex _ _) as [i|]; [|exact Hw].
  destruct (write_ok e);
    [|by apply well_formed_failed_write, unlink_photo_of_well_formed].
  destruct Hw as [Hnd Hit]. apply well_formed_stored.
  - rewrite (list_fmap_alter id _ (fun x => x)).
    + by rewrite list_alter_id.
    + by apply Forall_forall.
  - apply Forall_alter; [exact Hit|]. intros x _ []. split; simpl; auto.
Qed.

Lemma delete_inventory_id_well_formed e req params file w :
  well_formed w -> well_formed (snd (delete_inventory_id e req params file w)).
Proof.
  intros Hw. rewrite delete_inventory_id_eq. simpl.
  destruct (findIndex _ _) as [i|]; [|exact Hw].
  destruct (write_ok e);
    [|by apply well_formed_failed_write, unlink_photo_of_well_formed].
  destruct Hw as [Hnd Hit]. apply well_formed_stored.
  - rewrite list_fmap_delete. eapply sublist_NoDup; [exact Hnd|apply sublist_delete].
  - by apply Forall_delete.
Qed.

(** Layers other than the four mutating routes answer without touching the
    world. *)
Lemma post_search_world e req params file w :
  snd (post_search e req params file w) = w.
Proof.
  rewrite post_search_eq. destruct (truthy _); [|reflexivity].
  by destruct (find _ _).
Qed.

Lemma get_inventory_id_world e req params file w :
  snd (get_inventory_id e req params file w) = w.
Proof. rewrite get_inventory_id_eq. by destruct (find _ _). Qed.

Lemma get_inventory_world e req params file w :
  snd (get_inventory e req params file w) = w.
Proof. by rewrite get_inventory_eq. Qed.

Theorem serve_well_formed v e req w :
  well_formed w -> well_formed (snd (serve v e req w)).
Proof.
  intros Hw. unfold serve.
  apply (dispatch_post e req well_formed (fun rw => well_formed (snd rw))); auto.
  - by intros [er|] w'.
  - destruct v; stack_obligations; try exact I; try (by intros);
      intros Hm params Hp;
      (split; [intros _ f w0 _ Hw0; split; by apply well_formed_photos|]);
      intros file w' Hup Hnone Hw';
      eauto using post_register_well_formed, put_inventory_id_well_formed,
        put_inventory_id_photo_well_formed, delete_inventory_id_well_formed,
        uploaded_nonempty;
      rewrite ?get_inventory_world, ?get_inventory_id_world,
        ?get_inventory_id_photo_world, ?post_search_world; auto.
Qed.

Theorem run_well_formed v t w :
  well_formed w -> well_formed (snd (run v t w)).
Proof.
  revert w. induction t as [|[e req] t IH]; intros w Hw; [exact Hw|].
  simpl. pose proof (serve_well_formed v e req w Hw) as H1.
  destruct (serve v e req w) as [r w1]. specialize (IH w1 H1).
  by destruct (run v t w1).
Qed.

(** * Which handler serves which request *)

(** *** Paths *)

Lemma strip_slash_cons (p : list string) (x : string) (q : list string) :
  strip_slash p = x :: q -> exists q', p = x :: q'.
Proof.
  destruct p as [|y [|z p']]; [discriminate|..].
  - simpl. destruct (String.eqb y ""); [discriminate|]. intros [= -> _]. eauto.
  - change (strip_slash (y :: z :: p')) with (y :: strip_slash (z :: p')).
    intros [= -> _]. eauto.
Qed.

Lemma match_path_1 (a : string) (p ps : list string) :
  match_path [Lit a] p = Some ps ->
  exists x, strip_slash p = [x] /\ lower x = lower a /\ ps = [].
Proof.
  unfold match_path. destruct (strip_slash p) as [|x [|y q]]; simpl; try discriminate.
  - destruct (String.eqb (lower a) (lower x)) eqn:Hx; [|discriminate].
    intros [= <-]. apply String.eqb_eq in Hx. eauto.
  - destruct (String.eqb (lower a) (lower x)); discriminate.
Qed.

Lemma match_path_3 (a c : string) (p ps : list string) :
  match_path [Lit a; Param; Lit c] p = Some ps ->
  exists x y z, strip_slash p = [x; y; z] /\ lower x = lower a /\ lower z = lower c /\
                ps = [y].
Proof.
  unfold match_path.
  destruct (strip_slash p) as [|x [|y [|z [|u q]]]]; simpl; try discriminate;
    destruct (String.eqb (lower a) (lower x)) eqn:Hx; try discriminate;
    destruct (String.eqb y ""); try discriminate.
  - destruct (String.eqb (lower c) (lower z)) eqn:Hz; [|discriminate].
    intros [= <-]. apply String.eqb_eq in Hx, Hz. eauto 10.
  - destruct (String.eqb (lower c) (lower z)); discriminate.
Qed.

Lemma match_path_2 (a : string) (p ps : list string) :
  match_path [Lit a; Param] p = Some ps ->
  exists x y, strip_slash p = [x; y] /\ lower x = lower a /\ ps = [y].
Proof.
  unfold match_path.
  destruct (strip_slash p) as [|x [|y [|z q]]]; simpl; try discriminate;
    destruct (String.eqb (lower a) (lower x)) eqn:Hx; try discriminate;
    destruct (String.eqb y ""); try discriminate.
  intros [= <-]. apply String.eqb_eq in Hx. eauto 10.
Qed.

(** A parameter is never bound to the empty string. *)
Lemma match_path_param_nonempty (a : string) (p : list string) (i : string) :
  match_path [Lit a; Param] p = Some [i] -> i <> "".
Proof.
  unfold match_path.
  destruct (strip_slash p) as [|x [|y [|z q]]]; simpl; try discriminate;
    destruct (String.eqb (lower a) (lower x)); try discriminate;
    destruct (String.eqb_spec y ""); try discriminate.
  by intros [= <-].
Qed.

(** *** Stepping through the stack *)

Lemma dispatch_use name rest e req w :
  dispatch (Use name :: rest) None e req w = dispatch rest None e req w.
Proof. reflexivity. Qed.

Lemma dispatch_use_error h rest e req w :
  dispatch (UseError h :: rest) None e req w = dispatch rest None e req w.
Proof. reflexivity. Qed.

Lemma dispatch_mount_skip prefix name rest e req w x p :
  path req = x :: p -> lower x <> lower prefix ->
  dispatch (Mount prefix name :: rest) None e req w = dispatch rest None e req w.
Proof.
  intros Hp Hx. simpl. rewrite Hp.
  destruct (String.eqb _ _) eqn:Heq; [|reflexivity].
  apply String.eqb_eq in Heq. congruence.
Qed.

Lemma dispatch_route_skip m pat multipart h rest e req w :
  handles_method m (req_method req) = false \/ match_path pat (path req) = None ->
  dispatch (Route m pat multipart h :: rest) None e req w = dispatch rest None e req w.
Proof.
  intros [Hm|Hp]; simpl.
  - by rewrite Hm.
  - rewrite Hp. by destruct (handles_method _ _).
Qed.

Lemma handles_method_same (m : method) : handles_method m m = true.
Proof. unfold handles_method. by rewrite bool_decide_eq_true_2. Qed.

Lemma dispatch_route m pat multipart h rest e req w params :
  req_method req = m -> match_path pat (path req) = Some params ->
  dispatch (Route m pat multipart h :: rest) None e req w =
    if multipart then
      let '(r, w1) := upload_single e (photo_part req) w in
      match r with
      | inl er => dispatch rest (Some er) e req w1
      | inr file => h e req params file w1
      end
    else h e req params None w.
Proof.
  intros Hm Hp. simpl. rewrite Hm, handles_method_same, Hp.
  destruct multipart; [|reflexivity]. unfold bind.
  by destruct (upload_single _ _ _) as [[er|file] w1].
Qed.

(** The error-handling layer comes before the routes: an error raised by
    a route finds none behind it and ends in the final handler. *)
Lemma dispatch_error_routes v n er e req w :
  dispatch (drop n (routes v)) (Some er) e req w = (Response 500 DefaultErrorPage, w).
Proof.
  unfold routes. do 12 (destruct n as [|n]; [reflexivity|]). reflexivity.
Qed.

Lemma match_path_length pat p :
  length pat <> length (strip_slash p) -> match_path pat p = None.
Proof.
  unfold match_path. generalize (strip_slash p). clear p.
  induction pat as [|[a|] pat IH]; intros [|x p] Hlen; simpl in *; try done.
  - destruct (String.eqb _ _); [|done]. apply IH. lia.
  - destruct (String.eqb x ""); [done|]. rewrite IH by lia. done.
Qed.

Lemma match_path_other a pat p x q :
  strip_slash p = x :: q -> lower x <> lower a -> match_path (Lit a :: pat) p = None.
Proof.
  intros Hp Hx. unfold match_path. rewrite Hp. simpl.
  destruct (String.eqb _ _) eqn:Heq; [|done].
  apply String.eqb_eq in Heq. congruence.
Qed.

(** Deciding that a route is passed over, for a request of method [Hm],
    path [Hp] and first segment [Hlx]. *)
Ltac skip_route Hm Hp Hlx :=
  rewrite dispatch_route_skip
    by (first [ left; rewrite Hm; reflexivity
              | right; apply match_path_length; rewrite Hp; discriminate
              | right; apply (match_path_other _ _ _ _ _ Hp); rewrite Hlx; discriminate ]).

Lemma serve_routes v e req w x p :
  strip_slash (path req) = x :: p -> lower x <> lower "docs" ->
  serve v e req w = dispatch (routes v) None e req w.
Proof.
  intros Hx Hlx. unfold serve.
  apply strip_slash_cons in Hx as [q Hx].
  destruct v; unfold app, List.app;
    rewrite ?(dispatch_mount_skip _ _ _ _ _ _ x q Hx) by exact Hlx;
    by rewrite !dispatch_use, dispatch_use_error.
Qed.

Lemma serve_get_inventory v e req w :
  req_method req = GET -> is_Some (match_path [Lit "inventory"] (path req)) ->
  serve v e req w = get_inventory e req [] None w.
Proof.
  intros Hm [ps Hp]. pose proof Hp as Hp'.
  apply match_path_1 in Hp' as (x & Hx & Hlx & ->).
  rewrite (serve_routes v e req w x []) by (done || (rewrite Hlx; discriminate)).
  unfold routes. do 3 skip_route Hm Hx Hlx.
  by rewrite (dispatch_route _ _ _ _ _ _ _ _ [] Hm Hp).
Qed.

Lemma serve_get_inventory_id v e req w i :
  req_method req = GET -> match_path [Lit "inventory"; Param] (path req) = Some [i] ->
  serve v e req w = get_inventory_id e req [i] None w.
Proof.
  intros Hm Hp. pose proof Hp as Hp'.
  apply match_path_2 in Hp' as (x & y & Hx & Hlx & _).
  rewrite (serve_routes v e req w x [y]) by (done || (rewrite Hlx; discriminate)).
  unfold routes. do 4 skip_route Hm Hx Hlx.
  by rewrite (dispatch_route _ _ _ _ _ _ _ _ [i] Hm Hp).
Qed.

Lemma serve_put_inventory_id v e req w i :
  req_method req = PUT -> match_path [Lit "inventory"; Param] (path req) = Some [i] ->
  serve v e req w = put_inventory_id e req [i] None w.
Proof.
  intros Hm Hp. pose proof Hp as Hp'.
  apply match_path_2 in Hp' as (x & y & Hx & Hlx & _).
  rewrite (serve_routes v e req w x [y]) by (done || (rewrite Hlx; discriminate)).
  unfold routes. do 5 skip_route Hm Hx Hlx.
  by rewrite (dispatch_route _ _ _ _ _ _ _ _ [i] Hm Hp).
Qed.

Lemma serve_get_inventory_id_photo v e req w i :
  req_method req = GET ->
  match_path [Lit "inventory"; Param; Lit "photo"] (path req) = Some [i] ->
  serve v e req w = get_inventory_id_photo v e req [i] None w.
Proof.
  intros Hm Hp. pose proof Hp as Hp'.
  apply match_path_3 in Hp' as (x & y & z & Hx & Hlx & _).
  rewrite (serve_routes v e req w x [y; z]) by (done || (rewrite Hlx; discriminate)).
  unfold routes. do 6 skip_route Hm Hx Hlx.
  by rewrite (dispatch_route _ _ _ _ _ _ _ _ [i] Hm Hp).
Qed.

Lemma serve_delete_inventory_id v e req w i :
  req_method req = DELETE -> match_path [Lit "inventory"; Param] (path req) = Some [i] ->
  serve v e req w = delete_inventory_id e req [i] None w.
Proof.
  intros Hm Hp. pose proof Hp as Hp'.
  apply match_path_2 in Hp' as (x & y & Hx & Hlx & _).
  rewrite (serve_routes v e req w x [y]) by (done || (rewrite Hlx; discriminate)).
  unfold routes. do 8 skip_route Hm Hx Hlx.
  by rewrite (dispatch_route _ _ _ _ _ _ _ _ [i] Hm Hp).
Qed.

Lemma serve_post_search v e req w :
  req_method req = POST -> is_Some (match_path [Lit "search"] (path req)) ->
  serve v e req w = post_search e req [] None w.
Proof.
  intros Hm [ps Hp]. pose proof Hp as Hp'.
  apply match_path_1 in Hp' as (x & Hx & Hlx & ->).
  rewrite (serve_routes v e req w x []) by (done || (rewrite Hlx; discriminate)).
  unfold routes. do 9 skip_route Hm Hx Hlx.
  by rewrite (dispatch_route _ _ _ _ _ _ _ _ [] Hm Hp).
Qed.

(** The requests that carry an upload: [POST /register] and
    [PUT /inventory/:id/photo]. *)
Lemma serve_post_register v e req w :
  req_method req = POST -> is_Some (match_path [Lit "register"] (path req)) ->
  serve v e req w =
    let '(r, w1) := upload_single e (photo_part req) w in
    match r with
    | inl er => (Response 500 DefaultErrorPage, w1)
    | inr file => post_register v e req [] file w1
    end.
Proof.
  intros Hm [ps Hp]. pose proof Hp as Hp'.
  apply match_path_1 in Hp' as (x & Hx & Hlx & ->).
  assert (dispatch (routes v) None e req w =
          let '(r, w1) := upload_single e (photo_part req) w in
          match r with
          | inl er => (Response 500 DefaultErrorPage, w1)
          | inr file => post_register v e req [] file w1
          end) as Hroutes.
  { unfold routes. do 2 skip_route Hm Hx Hlx.
    rewrite (dispatch_route _ _ _ _ _ _ _ _ [] Hm Hp).
    destruct (upload_single _ _ _) as [[er|file] w1]; [|reflexivity].
    apply (dispatch_error_routes v 3). }
  rewrite (serve_routes v e req w x []) by (done || (rewrite Hlx; discriminate)).
  exact Hroutes.
Qed.

Lemma serve_put_inventory_id_photo v e req w :
  req_method req = PUT ->
  is_Some (match_path [Lit "inventory"; Param; Lit "photo"] (path req)) ->
  exists i,
    strip_slash (path req) !! 1%nat = Some i /\
    serve v e req w =
      let '(r, w1) := upload_single e (photo_part req) w in
      match r with
      | inl er => (Response 500 DefaultErrorPage, w1)
      | inr file => put_inventory_id_photo e req [i] file w1
      end.
Proof.
  intros Hm [ps Hp]. pose proof Hp as Hp'.
  apply match_path_3 in Hp' as (x & y & z & Hx & Hlx & Hlz & ->).
  exists y. split; [by rewrite Hx|].
  assert (dispatch (routes v) None e req w =
          let '(r, w1) := upload_single e (photo_part req) w in
          match r with
          | inl er => (Response 500 DefaultErrorPage, w1)
          | inr file => put_inventory_id_photo e req [y] file w1
          end) as Hroutes.
  { unfold routes. do 7 skip_route Hm Hx Hlx.
    rewrite (dispatch_route _ _ _ _ _ _ _ _ [y] Hm Hp).
    destruct (upload_single _ _ _) as [[er|file] w1]; [|reflexivity].
    apply (dispatch_error_routes v 8). }
  rewrite (serve_routes v e req w x [y; z]) by (done || (rewrite Hlx; discriminate)).
  exact Hroutes.
Qed.

Lemma alter_as_insert {A} (f : A -> A) (l : list A) (n : nat) (x : A) :
  l !! n = Some x -> alter f n l = <[n := f x]> l.
Proof.
  intros Hn. apply list_eq. intros j. destruct (decide (n = j)) as [<-|Hne].
  - rewrite list_lookup_alter_eq, Hn, list_lookup_insert_eq; [done|].
    by eapply lookup_lt_Some.
  - by rewrite list_lookup_alter_ne, list_lookup_insert_ne.
Qed.

(** *** Uploads *)

Lemma upload_single_accepted e f w :
  accepted f ->
  upload_single e (Some f) w
    = (inr (Some (uniqueName e f)), World (data_file w) ({[uniqueName e f]} ∪ photos w)).
Proof.
  intros [Hfilter Hsize]. unfold upload_single. rewrite Hfilter. simpl.
  unfold bind, store_photo. by rewrite (proj2 (Z.ltb_ge _ _) Hsize).
Qed.

(** The file written for an upload above the limit is removed again, and
    with it a photo that had the generated name. *)
Lemma upload_single_oversized e f w :
  fileFilter f = true -> fileSize < size f ->
  upload_single e (Some f) w
    = (inl (MulterError "LIMIT_FILE_SIZE"),
       World (data_file w) (photos w ∖ {[uniqueName e f]})).
Proof.
  intros Hfilter Hsize. unfold upload_single. rewrite Hfilter. simpl.
  unfold bind, store_photo, try_unlink. rewrite (proj2 (Z.ltb_lt _ _) Hsize). simpl.
  do 2 f_equal. apply set_eq. intros x.
  rewrite !elem_of_difference, elem_of_union, elem_of_singleton. tauto.
Qed.

Lemma upload_single_filtered e f w :
  fileFilter f = false ->
  upload_single e (Some f) w = (inl (Error "Only images are allowed"), w).
Proof. intros Hfilter. unfold upload_single. by rewrite Hfilter. Qed.

Lemma serve_put_photo v e req w i :
  req_method req = PUT ->
  match_path [Lit "inventory"; Param; Lit "photo"] (path req) = Some [i] ->
  serve v e req w =
    let '(r, w1) := upload_single e (photo_part req) w in
    match r with
    | inl er => (Response 500 DefaultErrorPage, w1)
    | inr file => put_inventory_id_photo e req [i] file w1
    end.
Proof.
  intros Hm Hp.
  destruct (serve_put_inventory_id_photo v e req w Hm (ex_intro _ _ Hp))
    as (y & Hy & ->).
  apply match_path_3 in Hp as (x & y' & z & Hx & _ & _ & [= ->]).
  rewrite Hx in Hy. by injection Hy as ->.
Qed.

(** *** A stored record, deleted or given a new photo *)

Lemma inventory_of_photos (w : world) (ph : gset string) :
  inventory_of (World (data_file w) ph) = inventory_of w.
Proof. by destruct w as [[] ?]. Qed.

Lemma photos_unlink_photo_of (it : item) (w : world) :
  photos (snd (unlink_photo_of (Some it) w)) =
    match photo_filename it with
    | Some name => if String.eqb name "" then photos w else photos w ∖ {[name]}
    | None => photos w
    end.
Proof.
  unfold unlink_photo_of. simpl. destruct (photo_filename it) as [name|]; [|reflexivity].
  simpl. by destruct (String.eqb name "").
Qed.

Lemma serve_delete_stored v e req w i n it :
  req_method req = DELETE ->
  match_path [Lit "inventory"; Param] (path req) = Some [i] ->
  ids_distinct w -> inventory_of w !! n = Some it -> parseInt i = Some (id it) ->
  serve v e req w =
    let w1 := snd (unlink_photo_of (Some it) w) in
    if write_ok e
    then (Response 200 (MessageJson "Device deleted successfully" (Some it)),
          World (Stored (delete n (inventory_of w))) (photos w1))
    else (Response 500 (ErrorJson "Data save error"), failed_write e w1).
Proof.
  intros Hm Hp Hnd Hn Hi.
  rewrite (serve_delete_inventory_id v e req w i Hm Hp), delete_inventory_id_eq.
  change (param_id [i]) with i. cbv zeta.
  by rewrite Hi, (findIndex_has_id _ n it Hnd Hn), Hn.
Qed.

Lemma serve_put_photo_stored v e req w i n it f :
  req_method req = PUT ->
  match_path [Lit "inventory"; Param; Lit "photo"] (path req) = Some [i] ->
  photo_part req = Some f -> accepted f ->
  ids_distinct w -> inventory_of w !! n = Some it -> parseInt i = Some (id it) ->
  serve v e req w =
    let new := uniqueName e f in
    let it' := set_photo_filename (Some new) it in
    let w1 := snd (unlink_photo_of (Some it)
                     (World (data_file w) ({[new]} ∪ photos w))) in
    if write_ok e
    then (Response 200 (MessageJson "Photo updated successfully" (Some it')),
          World (Stored (<[n := it']> (inventory_of w))) (photos w1))
    else (Response 500 (ErrorJson "Data save error"), failed_write e w1).
Proof.
  intros Hm Hp Hf Hacc Hnd Hn Hi.
  rewrite (serve_put_photo v e req w i Hm Hp), Hf, (upload_single_accepted e f w Hacc).
  rewrite put_inventory_id_photo_eq.
  change (param_id [i]) with i. cbv zeta.
  rewrite !inventory_of_photos.
  rewrite Hi, (findIndex_has_id _ n it Hnd Hn), Hn.
  rewrite (alter_as_insert _ _ _ _ Hn).
  by rewrite list_lookup_insert_eq by (by eapply lookup_lt_Some).
Qed.

(** A HEAD request is served by the route for GET; a slash at the end of
    the path and the case of the letters make no difference; a parameter
    is not matched by an empty segment. *)
Example head_and_trailing_slash :
  let w := snd (run main_js [ (good_env, register_req (Str "Laptop") Undefined None) ]
                  empty_store) in
  serve main_js good_env (Request HEAD ["inventory"; "1"] Body.empty None) w
    = serve main_js good_env (get_req "1") w /\
  serve main_js good_env (Request DELETE ["Inventory"; "1"; ""] Body.empty None) w
    = serve main_js good_env (delete_req "1") w /\
  match_path [Lit "inventory"; Param] ["inventory"; ""] = None /\
  match_path [Lit "inventory"] ["inventory"; ""] = Some [].
Proof. repeat split. Qed.

(** * parseInt reads back what Number::toString prints *)

Lemma parse_digits_acc (d : Decimal.uint) (acc : positive) :
  parse_digits 10 (NilEmpty.string_of_uint d) (Some (Z.pos acc))
  = Some (Z.pos (Pos.of_uint_acc d acc)).
Proof.
  revert acc. induction d; intros acc; simpl; [reflexivity|..];
    rewrite <- IHd; do 2 f_equal;
    match goal with
    | |- context [Z.of_nat (nat_of_ascii ?c)] =>
        let n := eval vm_compute in (Z.of_nat (nat_of_ascii c)) in
        change (Z.of_nat (nat_of_ascii c)) with n
    end; lia.
Qed.

Lemma parse_digits_zero (d : Decimal.uint) :
  parse_digits 10 (NilEmpty.string_of_uint d) (Some 0)
  = Some (Z.of_N (Pos.of_uint d)).
Proof.
  induction d; simpl; [reflexivity | exact IHd |..];
    apply (parse_digits_acc d).
Qed.

Lemma parse_digits_start (d : Decimal.uint) :
  d <> Decimal.Nil ->
  parse_digits 10 (NilEmpty.string_of_uint d) None
  = Some (Z.of_N (Pos.of_uint d)).
Proof.
  intros Hd. rewrite <- parse_digits_zero. by destruct d.
Qed.

(** A digit string has no white space to trim and no [0x] prefix. *)
Lemma parseInt_uint (d : Decimal.uint) :
  d <> Decimal.Nil ->
  parseInt (NilEmpty.string_of_uint d) = Some (Z.of_N (Pos.of_uint d)) /\
  parseInt (String "-" (NilEmpty.string_of_uint d)) = Some (- Z.of_N (Pos.of_uint d)).
Proof.
  intros Hd.
  assert (parseInt (NilEmpty.string_of_uint d)
          = match parse_digits 10 (NilEmpty.string_of_uint d) None with
            | Some m => Some (1 * m) | None => None end /\
          parseInt (String "-" (NilEmpty.string_of_uint d))
          = match parse_digits 10 (NilEmpty.string_of_uint d) None with
            | Some m => Some (-1 * m) | None => None end) as [H1 H2].
  { destruct d as [|d|d|d|d|d|d|d|d|d|d]; [done|..];
      destruct d; split; reflexivity. }
  rewrite H1, H2, parse_digits_start by assumption.
  split; f_equal; lia.
Qed.

(** The id a response prints is an id string that finds the record. *)
Theorem parseInt_string_of_Z (z : Z) : parseInt (string_of_Z z) = Some z.
Proof.
  unfold string_of_Z. destruct z as [|p|p]; [reflexivity|..]; simpl;
    pose proof (DecimalPos.Unsigned.to_uint_nonnil p) as Hp;
    destruct (parseInt_uint (Pos.to_uint p) Hp) as [H1 H2];
    unfold NilZero.string_of_uint;
    destruct (Pos.to_uint p) eqn:Hd; try done;
    rewrite ?H1, ?H2, <- Hd, DecimalPos.Unsigned.of_to; reflexivity.
Qed.

Lemma string_of_Z_nonempty (z : Z) : string_of_Z z <> "".
Proof.
  intros H. pose proof (parseInt_string_of_Z z) as Hz. rewrite H in Hz. discriminate.
Qed.

Lemma match_path_id (i : string) :
  i <> "" -> match_path [Lit "inventory"; Param] ["inventory"; i] = Some [i].
Proof. intros Hi. destruct i as [|c i']; [done|reflexivity]. Qed.

Lemma match_path_id_photo (i : string) :
  i <> "" ->
  match_path [Lit "inventory"; Param; Lit "photo"] ["inventory"; i; "photo"] = Some [i].
Proof. intros Hi. destruct i as [|c i']; [done|reflexivity]. Qed.

(** A stored record is fetched by the id its responses print. *)
Corollary get_by_printed_id v e w it :
  ids_distinct w -> it ∈ inventory_of w ->
  serve v e (get_req (string_of_Z (id it))) w
    = (Response 200 (ItemJson (set_photo_url (derived_photo_url it) it)), w).
Proof.
  intros Hnd Hin.
  rewrite (serve_get_inventory_id v e _ w (string_of_Z (id it)));
    [|reflexivity|apply match_path_id, string_of_Z_nonempty].
  rewrite get_inventory_id_eq. change (param_id [?i]) with i.
  by rewrite parseInt_string_of_Z, (find_has_id _ _ Hnd Hin).
Qed.

(** * C1: ids *)

Lemma get_inventory_id_photo_json v e req params file w :
  forall m it, json (fst (get_inventory_id_photo v e req params file w)) <> MessageJson m it.
Proof.
  intros m it. destruct w as [df ph]. unfold get_inventory_id_photo. run_handler.
  destruct df; simpl; try discriminate.
  destruct (find _ inv) as [x|]; [|discriminate].
  destruct (photo_filename x) as [name|]; [|discriminate].
  destruct (negb (String.eqb name "")); simpl; [|discriminate].
  destruct (bool_decide _ && _); discriminate.
Qed.

(** Only [/register] answers with a newly assigned id. *)
Lemma get_inventory_assigned e req params file w :
  assigned_id (fst (get_inventory e req params file w)) = None.
Proof. by rewrite get_inventory_eq. Qed.

Lemma get_inventory_id_assigned e req params file w :
  assigned_id (fst (get_inventory_id e req params file w)) = None.
Proof. rewrite get_inventory_id_eq. by destruct (find _ _). Qed.

Lemma put_inventory_id_assigned e req params file w :
  assigned_id (fst (put_inventory_id e req params file w)) = None.
Proof.
  rewrite put_inventory_id_eq. simpl. destruct (findIndex _ _); [|done].
  destruct (write_ok e); [|done]. unfold assigned_id. simpl. by destruct (_ !! _).
Qed.

Lemma get_inventory_id_photo_assigned v e req params file w :
  assigned_id (fst (get_inventory_id_photo v e req params file w)) = None.
Proof.
  unfold assigned_id.
  pose proof (get_inventory_id_photo_json v e req params file w) as H.
  destruct (json _) as [| m [it|] | | | | |]; try done. by destruct (H m (Some it)).
Qed.

Lemma put_inventory_id_photo_assigned e req params file w :
  assigned_id (fst (put_inventory_id_photo e req params file w)) = None.
Proof.
  rewrite put_inventory_id_photo_eq. destruct file; [|done]. simpl.
  destruct (findIndex _ _); [|done].
  destruct (write_ok e); [|done]. unfold assigned_id. simpl. by destruct (_ !! _).
Qed.

Lemma delete_inventory_id_assigned e req params file w :
  assigned_id (fst (delete_inventory_id e req params file w)) = None.
Proof.
  rewrite delete_inventory_id_eq. simpl. destruct (findIndex _ _); [|done].
  destruct (write_ok e); [|done]. unfold assigned_id. simpl. by destruct (_ !! _).
Qed.

Lemma post_search_assigned e req params file w :
  assigned_id (fst (post_search e req params file w)) = None.
Proof.
  rewrite post_search_eq. destruct (truthy _); [|done]. by destruct (find _ _).
Qed.

Lemma store_photo_inventory name w :
  inventory_of (snd (store_photo name w)) = inventory_of w.
Proof. destruct w as [[] ?]; reflexivity. Qed.

Lemma try_unlink_inventory name w :
  inventory_of (snd (try_unlink name w)) = inventory_of w.
Proof. destruct w as [[] ?]; reflexivity. Qed.

(** The id a registration assigns is the one [next_id] computes from the
    records stored at that moment. *)
Lemma serve_assigned_id v e req w k :
  assigned_id (fst (serve v e req w)) = Some k -> k = next_id (inventory_of w).
Proof.
  unfold serve. revert k.
  apply (dispatch_post e req (fun w' => inventory_of w' = inventory_of w)
           (fun rw => forall k, assigned_id (fst rw) = Some k ->
                                k = next_id (inventory_of w))); auto.
  - by intros [er|] w'.
  - destruct v; stack_obligations; try exact I; try (by intros);
      try (intros [c|] r w' _; simpl; try done;
           destruct (String.eqb c _); try done; by intros [= <-]);
      intros Hm params Hp;
      (split; [intros _ f w' _ Hw';
               split; by rewrite ?store_photo_inventory, ?try_unlink_inventory|]);
      intros file w' Hup Hnone Hw' k;
      rewrite ?get_inventory_assigned, ?get_inventory_id_assigned,
        ?put_inventory_id_assigned, ?get_inventory_id_photo_assigned,
        ?put_inventory_id_photo_assigned, ?delete_inventory_id_assigned,
        ?post_search_assigned; try done;
      rewrite post_register_eq; destruct (truthy _); try done; simpl;
      destruct (write_ok e); try done; unfold assigned_id; simpl;
      rewrite Hw'; congruence.
Qed.

(** C1 (as stated, refuted): after [register; DELETE /inventory/1; register]
    on the empty store the second registration is given id 1 again, the id
    of the record just deleted. *)
Lemma C1_deleted_id_assigned_again :
  let rs := fst (run main_js
                   [ (good_env, register_req (Str "Laptop") Undefined None);
                     (good_env, delete_req "1");
                     (good_env, register_req (Str "Phone") Undefined None) ]
                   empty_store) in
  rs !! 1%nat ≫= deleted_id = Some 1 /\
  rs !! 2%nat ≫= assigned_id = Some 1 /\
  ~ never_reused rs.
Proof.
  intros rs. split; [reflexivity|]. split; [reflexivity|].
  intros H. apply (H 1%nat 2%nat 1); [lia | reflexivity | reflexivity].
Qed.

(** C1 (amended): in every run from the empty store the ids of the stored
    records are pairwise distinct, and a registration assigns the id
    [next_id] computes, which is strictly greater than the id of every
    record stored at that moment. *)
Theorem C1_ids_distinct_and_fresh (v : variant) (t : list (env * request)) :
  let w := snd (run v t empty_store) in
  ids_distinct w /\
  forall e req k,
    assigned_id (fst (serve v e req w)) = Some k ->
    k = next_id (inventory_of w) /\
    forall it, it ∈ inventory_of w -> id it < k.
Proof.
  intros w. split.
  - apply (run_well_formed v t empty_store well_formed_empty_store).
  - intros e req k Hk. apply serve_assigned_id in Hk as ->.
    split; [reflexivity|]. apply next_id_fresh.
Qed.

Lemma C1_ids_distinct_and_fresh_witness :
  let t := [ (good_env, register_req (Str "Laptop") Undefined None);
             (good_env, register_req (Str "Phone") Undefined (Some png));
             (good_env, delete_req "1") ] in
  let w := snd (run main_js t empty_store) in
  assigned_id (fst (serve main_js good_env (register_req (Str "Tablet") Undefined None) w))
    = Some 3 /\
  3 = next_id (inventory_of w) /\
  forall it, it ∈ inventory_of w -> id it < 3.
Proof.
  intros t w. split; [reflexivity|].
  apply (proj2 (C1_ids_distinct_and_fresh main_js t) good_env
               (register_req (Str "Tablet") Undefined None) 3).
  reflexivity.
Defined.

(** * C2: a failed save *)

Lemma data_file_failed_write (e : env) (w : world) :
  data_file (failed_write e w) = if write_opened e then Unparsable else data_file w.
Proof. unfold failed_write. by destruct (write_opened e). Qed.

(** With a failing disk the record file changes only under the answer 500
    "Data save error", and then only if the write had opened the file. *)
Lemma serve_failed_write v e req w :
  write_ok e = false ->
  let save_error := Response 500 (ErrorJson "Data save error") in
  (fst (serve v e req w) = save_error ->
     data_file (snd (serve v e req w))
       = if write_opened e then Unparsable else data_file w) /\
  (fst (serve v e req w) <> save_error ->
     data_file (snd (serve v e req w)) = data_file w).
Proof.
  intros He save_error. unfold serve.
  apply (dispatch_post e req (fun w' => data_file w' = data_file w)
           (fun rw =>
              (fst rw = save_error ->
                 data_file (snd rw) = if write_opened e then Unparsable else data_file w) /\
              (fst rw <> save_error -> data_file (snd rw) = data_file w))); auto.
  - by intros [er|] w' Hw'.
  - destruct v; stack_obligations; try exact I;
      try (by intros; simpl; split; intros; [discriminate|assumption]);
      try (intros [c|] r w' Hw'; simpl; try done;
           destruct (String.eqb c _); try done; intros [= <-];
           split; intros; [discriminate|assumption]);
      intros Hm params Hp;
      (split; [intros _ f w0 _ Hw0; split; exact Hw0|]);
      intros file w' Hup Hnone Hw';
      rewrite ?post_register_eq, ?put_inventory_id_eq, ?put_inventory_id_photo_eq,
        ?delete_inventory_id_eq, ?get_inventory_eq, ?get_inventory_id_eq,
        ?post_search_eq, ?get_inventory_id_photo_eq, ?He; cbv zeta;
      repeat case_match; cbn [fst snd];
      rewrite ?data_file_failed_write, ?unlink_photo_of_data_file, ?Hw';
      repeat case_match; (split; intros; done).
Qed.

Lemma upload_single_with_write_ok b e f w :
  upload_single (with_write_ok b e) f w = upload_single e f w.
Proof. reflexivity. Qed.

Lemma dispatch_save_error e req stack :
  Forall (layer_save_error e req) stack ->
  forall err w,
    saved (fst (dispatch stack err (with_write_ok true e) req w)) ->
    fst (dispatch stack err e req w) = Response 500 (ErrorJson "Data save error").
Proof.
  intros Hstack. induction Hstack as [|l rest Hl _ IH]; intros err w.
  - destruct err; simpl; by intros (m & it & ?).
  - destruct err as [er|]; simpl.
    + destruct l; try by apply IH.
      destruct (h er) as [r|] eqn:Hh; [|by apply IH].
      intros Hs. by destruct (Hl er r Hh).
    + destruct l as [name|prefix name|h|m pat multipart h|h]; simpl in Hl.
      * by apply IH.
      * destruct (path req) as [|x ?]; [by apply IH|].
        destruct (String.eqb _ _); [by intros (m & it & ?) | by apply IH].
      * by apply IH.
      * destruct (handles_method _ _); [|by apply IH].
        destruct (match_path pat (path req)) as [params|]; [|by apply IH].
        destruct multipart; [|by apply Hl].
        unfold bind. rewrite upload_single_with_write_ok.
        destruct (upload_single e (photo_part req) w) as [[er|file] w1];
          [by apply IH | by apply Hl].
      * intros Hs. by destruct (Hl w).
Qed.

Lemma serve_save_error v e req w :
  write_ok e = false ->
  saved (fst (serve v (with_write_ok true e) req w)) ->
  fst (serve v e req w) = Response 500 (ErrorJson "Data save error").
Proof.
  intros He. unfold serve. apply dispatch_save_error.
  destruct v; unfold app, routes, List.app;
    repeat (apply List.Forall_cons); try apply List.Forall_nil;
    unfold layer_save_error; try exact I;
    try (intros [c|] r; simpl; try done; destruct (String.eqb c _); try done;
         by intros [= <-] (m & it & ?));
    try (by intros w' (m & it & ?));
    intros params file w';
    rewrite ?post_register_eq, ?put_inventory_id_eq, ?put_inventory_id_photo_eq,
      ?delete_inventory_id_eq, ?get_inventory_eq, ?get_inventory_id_eq,
      ?post_search_eq, ?get_inventory_id_photo_eq, ?He; simpl;
    repeat case_match; simpl; try done; by intros (m & it & ?).
Qed.

(** C2 (as stated, refuted): a write that fails after the record file was
    opened leaves it truncated: the update is answered 500 and the record
    that was stored is gone.  And when the disk refuses even to open the
    file, a failed deletion has already removed the record's photo. *)
Lemma C2_failed_save_loses_the_records :
  let laptop := Item 1 (Str "Laptop") (Str "old") (Some "1700000000000-123456789.png")
                     (Str "2025-01-01T00:00:00.000Z") Undefined in
  let w := snd (run main_js
                  [ (good_env, register_req (Str "Laptop") (Str "old") (Some png)) ]
                  empty_store) in
  let '(r, w1) := serve main_js full_disk (update_req "1" (Str "Desktop") Undefined) w in
  let '(r', w2) := serve main_js bad_disk (delete_req "1") w in
  inventory_of w = [laptop] /\
  r = Response 500 (ErrorJson "Data save error") /\
  data_file w1 = Unparsable /\
  inventory_of w1 = [] /\
  serve main_js good_env (get_req "1") w1
    = (Response 404 (ErrorJson "Device not found"), w1) /\
  r' = Response 500 (ErrorJson "Data save error") /\
  inventory_of w2 = [laptop] /\
  bool_decide ("1700000000000-123456789.png" ∈ photos w) = true /\
  bool_decide ("1700000000000-123456789.png" ∈ photos w2) = false.
Proof. vm_compute. repeat split. Qed.

(** C2 (amended): when the write fails, a request that a working disk would
    have saved is answered 500 "Data save error".  Under any other answer
    the record file is as it was; under that answer it is as it was when
    the write was refused at the open, and truncated, so that it reads as
    the empty collection, when the write failed later.  The photo directory
    is not restored: a deletion or photo replacement that fails to save has
    already removed the record's photo. *)
Theorem C2_failed_save
    (v : variant) (e : env) (req : request) (w : world)
    (i : string) (n : nat) (it : item) :
  write_ok e = false ->
  let save_error := Response 500 (ErrorJson "Data save error") in
  let '(r, w1) := serve v e req w in
  (saved (fst (serve v (with_write_ok true e) req w)) -> r = save_error) /\
  (r <> save_error -> data_file w1 = data_file w) /\
  (r = save_error -> write_opened e = false -> data_file w1 = data_file w) /\
  (r = save_error -> write_opened e = true ->
     data_file w1 = Unparsable /\ inventory_of w1 = []) /\
  ((req_method req = DELETE /\
    match_path [Lit "inventory"; Param] (path req) = Some [i]) \/
   (req_method req = PUT /\
    match_path [Lit "inventory"; Param; Lit "photo"] (path req) = Some [i] /\
    exists f, photo_part req = Some f /\ accepted f) ->
   ids_distinct w -> inventory_of w !! n = Some it -> parseInt i = Some (id it) ->
   r = save_error /\
   forall name, photo_filename it = Some name -> name <> "" -> name ∉ photos w1).
Proof.
  intros He save_error.
  pose proof (serve_failed_write v e req w He) as [Hsave Hother].
  pose proof (serve_save_error v e req w He) as Hsaved.
  assert (forall (ph : gset string) name, name ∉ ph ∖ {[name]}) as Hout.
  { intros ph name. rewrite elem_of_difference, elem_of_singleton. by intros [_ ?]. }
  assert (forall w0 name, photo_filename it = Some name -> name <> "" ->
            name ∉ photos (failed_write e (snd (unlink_photo_of (Some it) w0))))
    as Hgone.
  { intros w0 name Hname Hne.
    rewrite photos_failed_write, photos_unlink_photo_of, Hname.
    destruct (String.eqb_spec name ""); [done|]. apply Hout. }
  destruct (serve v e req w) as [r w1] eqn:Hserve. cbn [fst snd] in *.
  split; [exact Hsaved|]. split; [exact Hother|].
  split; [intros Hr Ho; rewrite (Hsave Hr), Ho; reflexivity|].
  split.
  - intros Hr Ho. rewrite inventory_of_data_file, (Hsave Hr), Ho. by split.
  - intros Hroute Hnd Hn Hi.
    destruct Hroute as [[Hm Hp] | (Hm & Hp & f & Hf & Hacc)].
    + rewrite (serve_delete_stored v e req w i n it Hm Hp Hnd Hn Hi), He in Hserve.
      cbv zeta in Hserve. injection Hserve as <- <-.
      split; [reflexivity|]. apply Hgone.
    + rewrite (serve_put_photo_stored v e req w i n it f Hm Hp Hf Hacc Hnd Hn Hi), He
        in Hserve.
      cbv zeta in Hserve. injection Hserve as <- <-.
      split; [reflexivity|]. apply Hgone.
Qed.

Lemma C2_failed_save_witness :
  let laptop := Item 1 (Str "Laptop") (Str "old") (Some "1700000000000-123456789.png")
                     (Str "2025-01-01T00:00:00.000Z") Undefined in
  let w := snd (run main_js
                  [ (good_env, register_req (Str "Laptop") (Str "old") (Some png)) ]
                  empty_store) in
  let '(r, w1) := serve main_js bad_disk (delete_req "1") w in
  r = Response 500 (ErrorJson "Data save error") /\
  data_file w1 = data_file w /\
  "1700000000000-123456789.png" ∉ photos w1.
Proof.
  intros laptop w.
  pose proof (C2_failed_save main_js bad_disk (delete_req "1") w "1" 0%nat laptop
                eq_refl) as H.
  cbv zeta in H.
  destruct (serve main_js bad_disk (delete_req "1") w) as [r w1].
  destruct H as (_ & _ & Hopen & _ & Hphoto).
  destruct Hphoto as [Hr Hgone];
    [left; by split | apply NoDup_singleton | reflexivity | reflexivity |].
  split; [exact Hr|]. split; [by apply Hopen|]. by apply Hgone.
Defined.

(** * C3: rejected uploads *)

(** C3 (as stated, refuted): a [text/plain] upload to [/register] is
    answered with status 500, which is no client error. *)
Lemma C3_non_image_upload_is_a_500 :
  let f := Upload "text/plain" 10 ".txt" in
  let r := fst (serve main_js good_env
                  (register_req (Str "Laptop") Undefined (Some f)) empty_store) in
  fileFilter f = false /\
  r = Response 500 DefaultErrorPage /\
  ~ (400 <= status r < 500).
Proof.
  intros f r. split; [reflexivity|]. split; [reflexivity|].
  change (status r) with 500. lia.
Qed.

(** The size limit fares the same: the error-handling layer that would
    answer 400 "File too large. Maximum 5MB" is registered before the
    routes, so a [LIMIT_FILE_SIZE] error raised by a route never reaches
    it. *)
Example oversized_upload_is_a_500 :
  let f := Upload "image/png" (6 * 1024 * 1024) ".png" in
  fst (upload_single good_env (Some f) empty_store)
    = inl (MulterError "LIMIT_FILE_SIZE") /\
  multer_error_middleware (MulterError "LIMIT_FILE_SIZE")
    = Some (Response 400 (ErrorJson "File too large. Maximum 5MB")) /\
  fst (serve main_js good_env (register_req (Str "Laptop") Undefined (Some f))
         empty_store)
    = Response 500 DefaultErrorPage /\
  fst (serve (swagger_js true) good_env (put_photo_req "1" (Some f)) empty_store)
    = Response 500 DefaultErrorPage.
Proof. repeat split. Qed.

Lemma difference_absent (ph : gset string) (name : string) :
  name ∉ ph -> ph ∖ {[name]} = ph.
Proof.
  intros Hout. apply set_eq. intros x.
  rewrite elem_of_difference, elem_of_singleton. split; [tauto|].
  intros Hx. split; [done|]. by intros ->.
Qed.

(** What an upload route answers to a request whose upload is rejected. *)
Lemma serve_upload_route v e req w :
  (req_method req = POST /\ is_Some (match_path [Lit "register"] (path req))) \/
  (req_method req = PUT /\
   is_Some (match_path [Lit "inventory"; Param; Lit "photo"] (path req))) ->
  exists (h : handler) params,
    serve v e req w =
      let '(r, w1) := upload_single e (photo_part req) w in
      match r with
      | inl er => (Response 500 DefaultErrorPage, w1)
      | inr file => h e req params file w1
      end.
Proof.
  intros [[Hm Hp]|[Hm Hp]].
  - eexists _, _. by apply serve_post_register.
  - destruct (serve_put_inventory_id_photo v e req w Hm Hp) as (i & _ & Hs).
    eexists _, _. exact Hs.
Qed.

(** C3 (amended): an upload to [/register] or [/inventory/:id/photo] whose
    declared content type does not start with [image/] is rejected before
    the route's handler runs: the answer is the final handler's, with
    status 500, and neither the record file nor the photo directory
    changes.  An upload above the size limit does not reach the handler
    either: the record file stays as it was and no photo is added; the
    file written under the generated name is removed again, so that the
    photo directory is as before unless a photo in it had that very
    name. *)
Theorem C3_rejected_upload
    (v : variant) (e : env) (req : request) (w : world) (f : upload) :
  (req_method req = POST /\ is_Some (match_path [Lit "register"] (path req))) \/
  (req_method req = PUT /\
   is_Some (match_path [Lit "inventory"; Param; Lit "photo"] (path req))) ->
  photo_part req = Some f ->
  (fileFilter f = false -> serve v e req w = (Response 500 DefaultErrorPage, w)) /\
  (fileSize < size f ->
     let w1 := snd (serve v e req w) in
     data_file w1 = data_file w /\
     photos w1 = (if fileFilter f then photos w ∖ {[uniqueName e f]} else photos w) /\
     (uniqueName e f ∉ photos w -> w1 = w)).
Proof.
  intros Hroute Hf.
  destruct (serve_upload_route v e req w Hroute) as (h & params & ->).
  rewrite Hf. split.
  - intros Hfilter. by rewrite (upload_single_filtered e f w Hfilter).
  - intros Hsz. destruct (fileFilter f) eqn:Hfilter.
    + rewrite (upload_single_oversized e f w Hfilter Hsz). cbn [snd data_file photos].
      split; [reflexivity|]. split; [reflexivity|].
      intros Hout. rewrite (difference_absent _ _ Hout). by destruct w.
    + by rewrite (upload_single_filtered e f w Hfilter).
Qed.

Lemma C3_rejected_upload_witness :
  let pdf := Upload "application/pdf" (7 * 1024 * 1024) ".pdf" in
  let big := Upload "image/png" (7 * 1024 * 1024) ".png" in
  let w := snd (run (swagger_js true)
                  [ (good_env, register_req (Str "Laptop") Undefined (Some png)) ]
                  empty_store) in
  serve (swagger_js true) good_env (put_photo_req "1" (Some pdf)) w
    = (Response 500 DefaultErrorPage, w) /\
  data_file (snd (serve (swagger_js true) good_env (put_photo_req "1" (Some big)) w))
    = data_file w /\
  photos (snd (serve (swagger_js true) good_env (put_photo_req "1" (Some big)) w))
    = photos w ∖ {["1700000000000-123456789.png"]}.
Proof.
  intros pdf big w.
  destruct (C3_rejected_upload (swagger_js true) good_env
              (put_photo_req "1" (Some pdf)) w pdf) as [Hfilter _];
    [right; split; [reflexivity | by eexists] | reflexivity |].
  destruct (C3_rejected_upload (swagger_js true) good_env
              (put_photo_req "1" (Some big)) w big) as [_ Hsize];
    [right; split; [reflexivity | by eexists] | reflexivity |].
  destruct Hsize as (Hfile & Hphotos & _); [reflexivity|].
  split; [apply Hfilter; reflexivity|]. split; [exact Hfile | exact Hphotos].
Defined.

(** * C4: registration *)

Lemma next_id_spec (inv : list item) : nextId_spec inv (next_id inv).
Proof.
  split; [by intros ->|]. destruct inv as [|a rest]; [done|]. intros _. simpl.
  replace (Math_max (id a) (id <$> rest) + 1 - 1) with (Math_max (id a) (id <$> rest)) by lia.
  split; [apply Math_max_attained|].
  intros x [->|Hx]%elem_of_cons; [apply Math_max_ge | by apply Math_max_upper].
Qed.

Lemma serve_only_name v e req w :
  only_name req -> write_ok e = true ->
  let it := newItem v e req None (next_id (inventory_of w)) in
  serve v e req w =
    (Response 201 (MessageJson "Device registered successfully" (Some it)),
     World (Stored (inventory_of w ++ [it])) (photos w)).
Proof.
  intros (Hm & Hp & Hname & _ & Hphoto) He it.
  rewrite serve_post_register by assumption.
  rewrite Hphoto. simpl. by rewrite post_register_eq, Hname, He.
Qed.

(** C4: a registration that carries only a name, served with a working
    disk, answers 201 with a record whose description is the empty string
    and whose photo_filename is null, and appends that record to the
    stored ones; on an empty store its id is 1 and the id of the next such
    registration is 2; whatever request is answered with a newly assigned
    id, that id is 1 when no record is stored and the greatest stored id
    plus 1 otherwise. *)
Theorem C4_register_assigns_next_id
    (v : variant) (e e2 : env) (req req2 : request) (w : world) :
  only_name req -> write_ok e = true ->
  let '(r, w1) := serve v e req w in
  (exists it,
     r = Response 201 (MessageJson "Device registered successfully" (Some it)) /\
     inventory_of w1 = (inventory_of w ++ [it])%list /\
     inventory_name it = Body.inventory_name (body req) /\
     description it = Str "" /\
     photo_filename it = None /\
     nextId_spec (inventory_of w) (id it) /\
     (inventory_of w = [] ->
        id it = 1 /\
        (only_name req2 -> write_ok e2 = true ->
         assigned_id (fst (serve v e2 req2 w1)) = Some 2))) /\
  (forall e' req' k,
     assigned_id (fst (serve v e' req' w)) = Some k ->
     nextId_spec (inventory_of w) k).
Proof.
  intros Hreq He. rewrite (serve_only_name v e req w Hreq He).
  split.
  - eexists. split; [reflexivity|]. split; [reflexivity|].
    destruct Hreq as (_ & _ & _ & Hdesc & _).
    split; [reflexivity|]. split; [simpl; by rewrite Hdesc|].
    split; [reflexivity|]. split; [apply next_id_spec|].
    intros Hempty. rewrite Hempty. split; [reflexivity|].
    intros Hreq2 He2. by rewrite (serve_only_name v e2 req2 _ Hreq2 He2).
  - intros e' req' k Hk. apply serve_assigned_id in Hk as ->. apply next_id_spec.
Qed.

Lemma C4_register_assigns_next_id_witness :
  let laptop := Item 1 (Str "Laptop") (Str "") None
                     (Str "2025-01-01T00:00:00.000Z") Undefined in
  let '(r, w1) := serve main_js good_env
                    (register_req (Str "Laptop") Undefined None) empty_store in
  r = Response 201 (MessageJson "Device registered successfully" (Some laptop)) /\
  inventory_of w1 = [laptop] /\
  assigned_id (fst (serve main_js good_env
                      (register_req (Str "Phone") Undefined None) w1)) = Some 2.
Proof.
  pose proof (C4_register_assigns_next_id main_js good_env good_env
                (register_req (Str "Laptop") Undefined None)
                (register_req (Str "Phone") Undefined None) empty_store) as H.
  simpl. simpl in H.
  destruct H as [(it & Hr & Hinv & _ & _ & _ & _ & Hempty) _].
  - repeat split; by eexists.
  - reflexivity.
  - injection Hr as <-. split; [reflexivity|]. split; [reflexivity|].
    apply Hempty; [reflexivity | repeat split; by eexists | reflexivity].
Defined.

(** * C5: update *)

Lemma assign_fields_updated (b : Body.t) (i : nat) (inv : list item) (it : item) :
  inv !! i = Some it -> assign_fields b i inv = <[i := updated b it]> inv.
Proof.
  intros Hi. apply list_eq. intros j. unfold assign_fields.
  destruct (decide (i = j)) as [<-|Hne].
  - rewrite list_lookup_insert_eq by (by eapply lookup_lt_Some).
    repeat case_decide; rewrite ?list_lookup_alter_eq, ?Hi; simpl; f_equal;
      destruct it as [k n d p c u]; unfold updated, set_description, set_inventory_name;
      simpl; f_equal;
      destruct (Body.inventory_name b), (Body.description b); simpl; congruence.
  - rewrite list_lookup_insert_ne by done.
    repeat case_decide; by rewrite ?list_lookup_alter_ne.
Qed.

(** C5: [PUT /inventory/:id] on a stored record, with a working disk,
    stores in its place the record whose inventory_name and description are
    those of the body where the body has them (an empty string included)
    and the stored ones where it has not, and whose other fields are the
    stored ones; every other record stays as it was, and with both fields
    absent the stored collection is the same as before. *)
Theorem C5_update_overwrites_present_fields
    (v : variant) (e : env) (req : request) (w : world)
    (i : string) (n : nat) (it : item) :
  req_method req = PUT ->
  match_path [Lit "inventory"; Param] (path req) = Some [i] ->
  write_ok e = true ->
  ids_distinct w ->
  inventory_of w !! n = Some it ->
  parseInt i = Some (id it) ->
  let b := body req in
  let '(r, w1) := serve v e req w in
  r = Response 200 (MessageJson "Device updated successfully" (Some (updated b it))) /\
  inventory_of w1 = <[n := updated b it]> (inventory_of w) /\
  (forall j, j <> n -> inventory_of w1 !! j = inventory_of w !! j) /\
  photos w1 = photos w /\
  (Body.inventory_name b = Undefined -> inventory_name (updated b it) = inventory_name it) /\
  (Body.inventory_name b <> Undefined ->
     inventory_name (updated b it) = Body.inventory_name b) /\
  (Body.description b = Undefined -> description (updated b it) = description it) /\
  (Body.description b <> Undefined -> description (updated b it) = Body.description b) /\
  id (updated b it) = id it /\
  photo_filename (updated b it) = photo_filename it /\
  (Body.inventory_name b = Undefined -> Body.description b = Undefined ->
     inventory_of w1 = inventory_of w).
Proof.
  intros Hm Hp He Hnd Hn Hi b.
  rewrite (serve_put_inventory_id v e req w i Hm Hp), put_inventory_id_eq.
  change (param_id [i]) with i. cbv zeta.
  rewrite Hi, (findIndex_has_id _ n it Hnd Hn), He.
  rewrite (assign_fields_updated _ _ _ _ Hn).
  rewrite list_lookup_insert_eq by (by eapply lookup_lt_Some).
  fold b. simpl. rewrite !inventory_of_stored.
  split; [reflexivity|]. split; [reflexivity|].
  split; [intros j Hj; by rewrite list_lookup_insert_ne|].
  split; [reflexivity|].
  split; [by intros ->|]. split; [by destruct (Body.inventory_name b)|].
  split; [by intros ->|]. split; [by destruct (Body.description b)|].
  split; [reflexivity|]. split; [reflexivity|].
  intros Hname Hdesc. unfold updated. rewrite Hname, Hdesc. simpl.
  apply list_insert_id. by destruct it.
Qed.

Lemma C5_update_overwrites_present_fields_witness :
  let stored := Item 1 (Str "Laptop") (Str "old") None
                     (Str "2025-01-01T00:00:00.000Z") Undefined in
  let w := World (Stored [stored]) ∅ in
  let '(r, w1) := serve main_js good_env (update_req "1" Undefined (Str "")) w in
  r = Response 200 (MessageJson "Device updated successfully"
                      (Some (set_description (Str "") stored))) /\
  inventory_of w1 = [set_description (Str "") stored].
Proof.
  intros stored w.
  pose proof (C5_update_overwrites_present_fields main_js good_env
                (update_req "1" Undefined (Str "")) w "1" 0%nat stored
                eq_refl eq_refl eq_refl) as H.
  destruct (serve main_js good_env (update_req "1" Undefined (Str "")) w) as [r w1].
  destruct H as (Hr & Hinv & _).
  - apply NoDup_singleton.
  - reflexivity.
  - reflexivity.
  - split; [exact Hr | exact Hinv].
Defined.

(** * C6: ids that do not parse *)

Lemma findIndex_NaN (inv : list item) : findIndex (has_id None) inv = None.
Proof. induction inv as [|a inv IH]; simpl; [done|]. by rewrite IH. Qed.

Lemma find_NaN (inv : list item) : find (has_id None) inv = None.
Proof. by rewrite find_findIndex, findIndex_NaN. Qed.

(** C6 (as stated, refuted): an empty id sent to [/search] does not parse,
    and the answer is 400 "ID is required", not 404.  (An id that merely
    starts with a number, such as [1abc], is no number either; [parseInt]
    reads the number it starts with and the record is served.) *)
Lemma C6_empty_search_id_is_a_400 :
  let w := snd (run main_js [ (good_env, register_req (Str "Laptop") Undefined None) ]
                  empty_store) in
  parseInt "" = None /\
  serve main_js good_env (search_req (Str "") Undefined) w
    = (Response 400 (ErrorJson "ID is required"), w) /\
  parseInt "1abc" = Some 1 /\
  status (fst (serve main_js good_env (get_req "1abc") w)) = 200.
Proof. repeat split. Qed.

(** C6 (amended): for an id on which [parseInt] yields NaN, GET, PUT and
    DELETE on [/inventory/:id] answer 404 "Device not found" and change
    nothing; [/search] answers the same 404 when the id is a non-empty
    string, and 400 "ID is required" when it is the empty string. *)
Theorem C6_unparsable_id_is_not_found
    (v : variant) (e : env) (req : request) (w : world) (i : string) :
  parseInt i = None ->
  let not_found := Response 404 (ErrorJson "Device not found") in
  (req_method req = GET \/ req_method req = PUT \/ req_method req = DELETE ->
   match_path [Lit "inventory"; Param] (path req) = Some [i] ->
   serve v e req w = (not_found, w)) /\
  (req_method req = POST -> is_Some (match_path [Lit "search"] (path req)) ->
   Body.id (body req) = Str i ->
   serve v e req w =
     (if String.eqb i "" then Response 400 (ErrorJson "ID is required") else not_found, w)).
Proof.
  intros Hi not_found. split.
  - intros [Hm|[Hm|Hm]] Hp.
    + rewrite (serve_get_inventory_id v e req w i Hm Hp), get_inventory_id_eq.
      change (param_id [i]) with i. by rewrite Hi, find_NaN.
    + rewrite (serve_put_inventory_id v e req w i Hm Hp), put_inventory_id_eq.
      change (param_id [i]) with i. cbv zeta. by rewrite Hi, findIndex_NaN.
    + rewrite (serve_delete_inventory_id v e req w i Hm Hp), delete_inventory_id_eq.
      change (param_id [i]) with i. cbv zeta. by rewrite Hi, findIndex_NaN.
  - intros Hm Hp Hid. rewrite (serve_post_search v e req w Hm Hp), post_search_eq, Hid.
    simpl. destruct (String.eqb i ""); simpl; [reflexivity|].
    by rewrite Hi, find_NaN.
Qed.

Lemma C6_unparsable_id_is_not_found_witness :
  let w := snd (run main_js [ (good_env, register_req (Str "Laptop") Undefined None) ]
                  empty_store) in
  serve main_js good_env (delete_req "abc") w
    = (Response 404 (ErrorJson "Device not found"), w) /\
  serve main_js good_env (search_req (Str "abc") (Str "true")) w
    = (Response 404 (ErrorJson "Device not found"), w).
Proof.
  intros w. split.
  - apply (proj1 (C6_unparsable_id_is_not_found main_js good_env
                    (delete_req "abc") w "abc" eq_refl));
      [right; right; reflexivity | reflexivity].
  - apply (proj2 (C6_unparsable_id_is_not_found main_js good_env
                    (search_req (Str "abc") (Str "true")) w "abc" eq_refl));
      [reflexivity | by eexists | reflexivity].
Defined.

(** * C7: the photo marker of /search *)





(** * C8: loading never fails *)

(** C8: [readInventory] always returns an array and leaves the world as it
    was; when the file is absent or is not JSON the array is empty, and
    [GET /inventory] then answers 200 with the empty list. *)
Theorem C8_unreadable_file_reads_as_empty
    (v : variant) (e : env) (req : request) (w : world) :
  (exists inventory, readInventory w = (inventory, w)) /\
  (data_file w = Absent \/ data_file w = Unparsable ->
   readInventory w = ([], w) /\
   (req_method req = GET -> is_Some (match_path [Lit "inventory"] (path req)) ->
    serve v e req w = (Response 200 (ListJson []), w))).
Proof.
  split.
  - exists (inventory_of w). apply read_inventory_of.
  - intros Hfile.
    assert (inventory_of w = []) as Hempty.
    { rewrite inventory_of_data_file. by destruct Hfile as [-> | ->]. }
    split.
    + by rewrite read_inventory_of, Hempty.
    + intros Hm Hp. by rewrite (serve_get_inventory v e req w Hm Hp), get_inventory_eq, Hempty.
Qed.

Lemma C8_unreadable_file_reads_as_empty_witness :
  let w := World Unparsable ∅ in
  readInventory w = ([], w) /\
  serve main_js good_env list_req w = (Response 200 (ListJson []), w).
Proof.
  intros w.
  destruct (C8_unreadable_file_reads_as_empty main_js good_env list_req w)
    as [_ H].
  destruct H as [Hread Hlist]; [by right|].
  split; [exact Hread | apply Hlist; [reflexivity | by eexists]].
Defined.

(** * C9: one record and its entry in the list *)

Lemma derived_photo_url_null (it : item) :
  photo_filename it <> Some "" ->
  (derived_photo_url it = Null <-> photo_filename it = None).
Proof.
  intros Hne. unfold derived_photo_url, has_photo_filename.
  destruct (photo_filename it) as [name|]; simpl; [|done].
  destruct (String.eqb_spec name "") as [->|]; simpl; [done|].
  split; discriminate.
Qed.

(** C9: in every run from the empty store, for every stored record, what
    [GET /inventory/:id] answers for its id is the entry [GET /inventory]
    lists at the record's position; that entry carries the record's stored
    fields, and its photo_url is null exactly when the record's
    photo_filename is null or absent. *)
Theorem C9_get_agrees_with_list
    (v : variant) (t : list (env * request)) (e e' : env) (one all : request)
    (i : string) (n : nat) (it : item) :
  let w := snd (run v t empty_store) in
  inventory_of w !! n = Some it ->
  parseInt i = Some (id it) ->
  req_method one = GET -> match_path [Lit "inventory"; Param] (path one) = Some [i] ->
  req_method all = GET -> is_Some (match_path [Lit "inventory"] (path all)) ->
  exists entries entry,
    fst (serve v e' all w) = Response 200 (ListJson entries) /\
    entries !! n = Some entry /\
    fst (serve v e one w) = Response 200 (ItemJson entry) /\
    id entry = id it /\
    inventory_name entry = inventory_name it /\
    description entry = description it /\
    photo_filename entry = photo_filename it /\
    created_at entry = created_at it /\
    (photo_url entry = Null <-> photo_filename it = None).
Proof.
  intros w Hn Hi Hgm Hgp Hlm Hlp.
  destruct (run_well_formed v t empty_store well_formed_empty_store) as [Hnd Hwf].
  fold w in Hnd, Hwf.
  assert (it ∈ inventory_of w) as Hin by (by eapply list_elem_of_lookup_2).
  rewrite (serve_get_inventory v e' all w Hlm Hlp), get_inventory_eq.
  rewrite (serve_get_inventory_id v e one w i Hgm Hgp), get_inventory_id_eq.
  change (param_id [i]) with i. rewrite Hi, (find_has_id _ _ Hnd Hin).
  eexists _, _. split; [reflexivity|].
  split; [by rewrite list_lookup_fmap, Hn|].
  split; [reflexivity|]. repeat (split; [reflexivity|]).
  simpl. apply derived_photo_url_null.
  rewrite Forall_forall in Hwf. by destruct (Hwf it Hin).
Qed.

Lemma C9_get_agrees_with_list_witness :
  let t := [ (good_env, register_req (Str "Laptop") Undefined None);
             (good_env, register_req (Str "Phone") Undefined (Some png)) ] in
  let w := snd (run main_js t empty_store) in
  exists entries entry,
    fst (serve main_js good_env list_req w) = Response 200 (ListJson entries) /\
    entries !! 1%nat = Some entry /\
    fst (serve main_js good_env (get_req "2") w) = Response 200 (ItemJson entry) /\
    photo_url entry = Str "/inventory/2/photo".
Proof.
  intros t w.
  destruct (C9_get_agrees_with_list main_js t good_env good_env
              (get_req "2") list_req "2" 1%nat
              (Item 2 (Str "Phone") (Str "")
                    (Some "1700000000000-123456789.png")
                    (Str "2025-01-01T00:00:00.000Z") Undefined))
    as (entries & entry & Hlist & Hentry & Hget & _);
    [reflexivity | reflexivity | reflexivity | reflexivity | reflexivity
    | by eexists | ].
  exists entries, entry. split; [exact Hlist|]. split; [exact Hentry|].
  split; [exact Hget|].
  fold w in Hget. assert (fst (serve main_js good_env (get_req "2") w)
            = Response 200 (ItemJson (Item 2 (Str "Phone") (Str "")
                    (Some "1700000000000-123456789.png")
                    (Str "2025-01-01T00:00:00.000Z") (Str "/inventory/2/photo"))))
    as Hval by reflexivity.
  rewrite Hval in Hget. by injection Hget as <-.
Defined.

(** * C10: reads do not write *)

(** The four read-only operations. *)
Lemma serve_read_only v e req w :
  (req_method req = GET /\ is_Some (match_path [Lit "inventory"] (path req))) \/
  (req_method req = GET /\ is_Some (match_path [Lit "inventory"; Param] (path req))) \/
  (req_method req = GET /\
   is_Some (match_path [Lit "inventory"; Param; Lit "photo"] (path req))) \/
  (req_method req = POST /\ is_Some (match_path [Lit "search"] (path req))) ->
  snd (serve v e req w) = w.
Proof.
  intros [[Hm Hp]|[[Hm [ps Hp]]|[[Hm [ps Hp]]|[Hm Hp]]]].
  - by rewrite (serve_get_inventory v e req w Hm Hp), get_inventory_world.
  - pose proof Hp as Hp'. apply match_path_2 in Hp' as (x & y & _ & _ & ->).
    by rewrite (serve_get_inventory_id v e req w y Hm Hp), get_inventory_id_world.
  - pose proof Hp as Hp'. apply match_path_3 in Hp' as (x & y & z & _ & _ & _ & ->).
    by rewrite (serve_get_inventory_id_photo v e req w y Hm Hp),
         get_inventory_id_photo_world.
  - by rewrite (serve_post_search v e req w Hm Hp), post_search_world.
Qed.

(** C10: [GET /inventory], [GET /inventory/:id], [GET /inventory/:id/photo]
    and [POST /search] leave the record file and the photo directory as
    they were; and in every run from the empty store no stored record has a
    photo_url field. *)
Theorem C10_reads_do_not_write
    (v : variant) (e : env) (req : request) (w : world) (t : list (env * request)) :
  ((req_method req = GET /\ is_Some (match_path [Lit "inventory"] (path req))) \/
   (req_method req = GET /\ is_Some (match_path [Lit "inventory"; Param] (path req))) \/
   (req_method req = GET /\
    is_Some (match_path [Lit "inventory"; Param; Lit "photo"] (path req))) \/
   (req_method req = POST /\ is_Some (match_path [Lit "search"] (path req))) ->
   snd (serve v e req w) = w) /\
  Forall (fun it => photo_url it = Undefined)
         (inventory_of (snd (run v t empty_store))).
Proof.
  split; [apply serve_read_only|].
  destruct (run_well_formed v t empty_store well_formed_empty_store) as [_ Hwf].
  eapply Forall_impl; [exact Hwf|]. by intros it [].
Qed.

Lemma C10_reads_do_not_write_witness :
  let w := snd (run main_js
                  [ (good_env, register_req (Str "Laptop") (Str "13 inch") (Some png)) ]
                  empty_store) in
  snd (serve main_js good_env (search_req (Str "1") (Str "true")) w) = w /\
  snd (serve main_js good_env (get_req "1") w) = w.
Proof.
  intros w. split.
  - apply (proj1 (C10_reads_do_not_write main_js good_env
                    (search_req (Str "1") (Str "true")) w [])).
    right; right; right. split; [reflexivity | by eexists].
  - apply (proj1 (C10_reads_do_not_write main_js good_env (get_req "1") w [])).
    right; left. split; [reflexivity | by eexists].
Defined.

(** * Further properties of the handlers *)

(** ** Looking a record up *)

Lemma find_has_id_None (inv : list item) (k : Z) :
  find (has_id (Some k)) inv = None <-> forall it, it ∈ inv -> id it <> k.
Proof.
  split.
  - intros H it Hin Hk. apply (find_None _ _ H) in Hin. simpl in Hin.
    apply Z.eqb_neq in Hin. done.
  - intros H. destruct (find _ inv) as [x|] eqn:Hx; [|done].
    apply find_Some in Hx as [Hin Hp]. simpl in Hp. apply Z.eqb_eq in Hp.
    by destruct (H x Hin).
Qed.

Lemma findIndex_has_id_None (inv : list item) (k : Z) :
  (forall it, it ∈ inv -> id it <> k) -> findIndex (has_id (Some k)) inv = None.
Proof.
  intros H. destruct (findIndex _ inv) as [n|] eqn:Hn; [|done].
  apply findIndex_Some in Hn as (x & Hx & Hp & _). simpl in Hp.
  apply Z.eqb_eq in Hp. apply list_elem_of_lookup_2 in Hx. by destruct (H x Hx).
Qed.

(** X1: for an id that parses to a number, [GET /inventory/:id] answers 200
    exactly when a stored record carries that number; when none does, GET,
    PUT and DELETE answer 404 "Device not found" and change nothing,
    whatever the disk would do. *)
Theorem X1_found_iff_stored
    (v : variant) (e : env) (req : request) (w : world) (i : string) (k : Z) :
  parseInt i = Some k ->
  match_path [Lit "inventory"; Param] (path req) = Some [i] ->
  (req_method req = GET ->
     (status (fst (serve v e req w)) = 200 <-> stored_id w k)) /\
  (req_method req = GET \/ req_method req = PUT \/ req_method req = DELETE ->
   ~ stored_id w k ->
   serve v e req w = (Response 404 (ErrorJson "Device not found"), w)).
Proof.
  intros Hi Hp. split.
  - intros Hm. rewrite (serve_get_inventory_id v e req w i Hm Hp), get_inventory_id_eq.
    change (param_id [i]) with i. rewrite Hi.
    destruct (find _ _) as [x|] eqn:Hx; simpl.
    + split; [|done]. intros _. apply find_Some in Hx as [Hin Hk].
      simpl in Hk. apply Z.eqb_eq in Hk. by exists x.
    + split; [done|]. intros (it & Hin & Hk).
      by destruct (proj1 (find_has_id_None _ _) Hx it Hin).
  - intros Hm Hno.
    assert (forall it, it ∈ inventory_of w -> id it <> k) as Hall.
    { intros it Hin Hk. apply Hno. by exists it. }
    destruct Hm as [Hm|[Hm|Hm]].
    + rewrite (serve_get_inventory_id v e req w i Hm Hp), get_inventory_id_eq.
      change (param_id [i]) with i.
      by rewrite Hi, (proj2 (find_has_id_None _ _) Hall).
    + rewrite (serve_put_inventory_id v e req w i Hm Hp), put_inventory_id_eq.
      change (param_id [i]) with i. cbv zeta.
      by rewrite Hi, (findIndex_has_id_None _ _ Hall).
    + rewrite (serve_delete_inventory_id v e req w i Hm Hp), delete_inventory_id_eq.
      change (param_id [i]) with i. cbv zeta.
      by rewrite Hi, (findIndex_has_id_None _ _ Hall).
Qed.

Lemma X1_found_iff_stored_witness :
  let w := snd (run main_js [ (good_env, register_req (Str "Laptop") Undefined None) ]
                  empty_store) in
  (status (fst (serve main_js good_env (get_req "1") w)) = 200 <-> stored_id w 1) /\
  serve main_js good_env (delete_req "7") w
    = (Response 404 (ErrorJson "Device not found"), w).
Proof.
  intros w. split.
  - apply (proj1 (X1_found_iff_stored main_js good_env (get_req "1") w "1" 1
                    eq_refl eq_refl)). reflexivity.
  - apply (proj2 (X1_found_iff_stored main_js good_env (delete_req "7") w "7" 7
                    eq_refl eq_refl)); [right; right; reflexivity|].
    intros (it & Hin & Hk). apply list_elem_of_singleton in Hin. by subst.
Defined.

(** ** /search and GET agree *)

(** X2: when has_photo is not the string "true", [POST /search] with a
    non-empty id string answers exactly what [GET /inventory/:id] answers for
    that string, found or not. *)
Theorem X2_search_answers_as_get
    (v : variant) (e e' : env) (req one : request) (w : world) (i : string) :
  req_method req = POST -> is_Some (match_path [Lit "search"] (path req)) ->
  Body.id (body req) = Str i -> i <> "" ->
  Body.has_photo (body req) <> Str "true" ->
  req_method one = GET -> match_path [Lit "inventory"; Param] (path one) = Some [i] ->
  serve v e req w = serve v e' one w.
Proof.
  intros Hm Hp Hid Hne Hhp Hgm Hgp.
  rewrite (serve_post_search v e req w Hm Hp), post_search_eq, Hid.
  rewrite (serve_get_inventory_id v e' one w i Hgm Hgp), get_inventory_id_eq.
  change (param_id [i]) with i. change (ToString (Str i)) with i.
  assert (truthy (Str i) = true) as ->.
  { simpl. by destruct (String.eqb_spec i ""). }
  destruct (find _ _) as [x|]; [|reflexivity].
  cbv zeta. by rewrite bool_decide_eq_false_2.
Qed.

Lemma X2_search_answers_as_get_witness :
  let w := snd (run main_js
                  [ (good_env, register_req (Str "Laptop") Undefined (Some png)) ]
                  empty_store) in
  serve main_js good_env (search_req (Str "1") (Str "yes")) w
    = serve main_js good_env (get_req "1") w.
Proof.
  intros w.
  apply (X2_search_answers_as_get main_js good_env good_env
           (search_req (Str "1") (Str "yes")) (get_req "1") w "1");
    try reflexivity; try discriminate. by eexists.
Defined.

(** ** Helpers on arrays, uploads and the photo route *)

Lemma NoDup_delete_lookup {A} (l : list A) (n : nat) (x : A) :
  NoDup l -> l !! n = Some x -> x ∉ delete n l.
Proof.
  intros Hnd Hn. rewrite <- (take_drop_middle l n x Hn) in Hnd.
  apply NoDup_app in Hnd as (_ & Hdisj & Hrest). apply NoDup_cons in Hrest as [Hx _].
  rewrite delete_take_drop. intros [Hin|Hin]%elem_of_app; [|done].
  apply (Hdisj x Hin). apply list_elem_of_here.
Qed.

Lemma ids_distinct_register (inv : list item) (it : item) :
  NoDup (id <$> inv) -> id it = next_id inv -> NoDup (id <$> (inv ++ [it])%list).
Proof.
  intros Hnd Hid. rewrite fmap_app. apply NoDup_app. split; [exact Hnd|]. split.
  - intros x [y [-> Hin]]%list_elem_of_fmap_1 Hx. simpl in Hx.
    apply list_elem_of_singleton in Hx. pose proof (next_id_fresh _ _ Hin). lia.
  - apply NoDup_singleton.
Qed.

(** ** Deleting *)

(** X3: [DELETE /inventory/:id] on a stored record, with a working disk,
    answers 200 with the record, leaves the other records in their order,
    removes the record's photo from the photo directory, and a GET for the
    id afterwards answers 404. *)
Theorem X3_delete_removes_the_record
    (v : variant) (e e' : env) (req one : request) (w : world)
    (i j : string) (n : nat) (it : item) :
  req_method req = DELETE ->
  match_path [Lit "inventory"; Param] (path req) = Some [i] ->
  write_ok e = true ->
  ids_distinct w ->
  inventory_of w !! n = Some it ->
  parseInt i = Some (id it) ->
  req_method one = GET -> match_path [Lit "inventory"; Param] (path one) = Some [j] ->
  parseInt j = Some (id it) ->
  let '(r, w1) := serve v e req w in
  r = Response 200 (MessageJson "Device deleted successfully" (Some it)) /\
  inventory_of w1 = delete n (inventory_of w) /\
  ~ stored_id w1 (id it) /\
  (forall name, photo_filename it = Some name -> name <> "" -> name ∉ photos w1) /\
  serve v e' one w1 = (Response 404 (ErrorJson "Device not found"), w1).
Proof.
  intros Hm Hp He Hnd Hn Hi Hgm Hgp Hj.
  rewrite (serve_delete_inventory_id v e req w i Hm Hp), delete_inventory_id_eq.
  change (param_id [i]) with i. cbv zeta.
  rewrite Hi, (findIndex_has_id _ n it Hnd Hn), He, Hn.
  assert (forall x, x ∈ delete n (inventory_of w) -> id x <> id it) as Hgone.
  { intros x Hx Hid.
    apply (NoDup_delete_lookup (id <$> inventory_of w) n (id it) Hnd).
    - by rewrite list_lookup_fmap, Hn.
    - rewrite <- list_fmap_delete, <- Hid. by apply list_elem_of_fmap_2. }
  split; [reflexivity|]. split; [reflexivity|]. split; [|split].
  - intros (x & Hx & Hid). rewrite inventory_of_stored in Hx. by apply (Hgone x).
  - intros name Hname Hne. unfold unlink_photo_of. simpl. rewrite Hname.
    simpl. destruct (String.eqb name "") eqn:Hempty; simpl.
    + apply String.eqb_eq in Hempty. by destruct Hne.
    + rewrite elem_of_difference, elem_of_singleton. by intros [_ ?].
  - rewrite (serve_get_inventory_id v e' one _ j Hgm Hgp), get_inventory_id_eq.
    change (param_id [j]) with j. rewrite Hj, inventory_of_stored.
    by rewrite (proj2 (find_has_id_None _ _) Hgone).
Qed.

Lemma X3_delete_removes_the_record_witness :
  let laptop := Item 1 (Str "Laptop") (Str "") (Some "1700000000000-123456789.png")
                     (Str "2025-01-01T00:00:00.000Z") Undefined in
  let w := snd (run main_js
                  [ (good_env, register_req (Str "Laptop") Undefined (Some png)) ]
                  empty_store) in
  let '(r, w1) := serve main_js good_env (delete_req "1") w in
  r = Response 200 (MessageJson "Device deleted successfully" (Some laptop)) /\
  inventory_of w1 = [] /\
  ("1700000000000-123456789.png" ∉ photos w1) /\
  serve main_js good_env (get_req "1") w1
    = (Response 404 (ErrorJson "Device not found"), w1).
Proof.
  intros laptop w.
  pose proof (X3_delete_removes_the_record main_js good_env good_env
                (delete_req "1") (get_req "1") w "1" "1" 0%nat laptop
                eq_refl eq_refl eq_refl) as H.
  destruct (serve main_js good_env (delete_req "1") w) as [r w1].
  destruct H as (Hr & Hinv & _ & Hphoto & Hget);
    [apply NoDup_singleton | reflexivity | reflexivity | reflexivity | reflexivity
    | reflexivity | ].
  split; [exact Hr|]. split; [exact Hinv|].
  split; [by apply (Hphoto _ eq_refl) | exact Hget].
Defined.

(** ** The photo route *)

(** [res.sendFile] throws in the Swagger variant started with a cache
    directory that is not absolute, and nowhere else. *)
Lemma sendFile_throws_true (v : variant) :
  sendFile_throws v = true <-> v = swagger_js false.
Proof. destruct v as [|[]]; simpl; split; congruence. Qed.

Lemma sendFile_throws_false (v : variant) :
  sendFile_throws v = false <-> v <> swagger_js false.
Proof. destruct v as [|[]]; simpl; split; congruence. Qed.

(** The photo route, for a record that names a photo. *)
Lemma serve_photo_route v e req w i it name :
  req_method req = GET ->
  match_path [Lit "inventory"; Param; Lit "photo"] (path req) = Some [i] ->
  ids_distinct w -> it ∈ inventory_of w -> parseInt i = Some (id it) ->
  photo_filename it = Some name -> name <> "" ->
  serve v e req w =
    (if bool_decide (name ∈ photos w) && negb (sendFile_throws v)
     then Response 200 (PhotoFile name "image/jpeg")
     else Response 404 (ErrorJson "Photo file not found"), w).
Proof.
  intros Hm Hp Hnd Hin Hi Hname Hne.
  rewrite (serve_get_inventory_id_photo v e req w i Hm Hp), get_inventory_id_photo_eq.
  change (param_id [i]) with i. rewrite Hi, (find_has_id _ _ Hnd Hin), Hname.
  by destruct (String.eqb_spec name "").
Qed.

(** X4: for a stored record, [GET /inventory/:id/photo] changes nothing and
    answers 200 exactly when the record names a photo, a file of that name
    is in the photo directory and [res.sendFile] is given an absolute path
    (always in [main.js]; in the Swagger variant when the cache directory
    was given as one); the content type is then image/jpeg, whatever type
    the upload declared.  A record without a photo gets 404 "Photo not
    found"; a record whose file is gone, or whose file cannot be sent, 404
    "Photo file not found". *)
Theorem X4_photo_served_iff_file_present
    (v : variant) (e : env) (req : request) (w : world) (i : string) (it : item) :
  req_method req = GET ->
  match_path [Lit "inventory"; Param; Lit "photo"] (path req) = Some [i] ->
  ids_distinct w -> it ∈ inventory_of w -> parseInt i = Some (id it) ->
  let '(r, w1) := serve v e req w in
  w1 = w /\
  (status r = 200 <->
     v <> swagger_js false /\
     exists name, photo_filename it = Some name /\ name <> "" /\ name ∈ photos w) /\
  (forall name, photo_filename it = Some name -> name <> "" -> name ∈ photos w ->
     v <> swagger_js false ->
     r = Response 200 (PhotoFile name "image/jpeg")) /\
  (forall name, photo_filename it = Some name -> name <> "" ->
     name ∉ photos w \/ v = swagger_js false ->
     r = Response 404 (ErrorJson "Photo file not found")) /\
  (photo_filename it = None \/ photo_filename it = Some "" ->
     r = Response 404 (ErrorJson "Photo not found")).
Proof.
  intros Hm Hp Hnd Hin Hi.
  destruct (photo_filename it) as [name|] eqn:Hname.
  - destruct (String.eqb_spec name "") as [->|Hne].
    + rewrite (serve_get_inventory_id_photo v e req w i Hm Hp),
        get_inventory_id_photo_eq.
      change (param_id [i]) with i. rewrite Hi, (find_has_id _ _ Hnd Hin), Hname.
      simpl. split; [reflexivity|].
      split; [split; [done|by intros (_ & ? & [= <-] & ? & _)]|].
      split; [by intros ? [= <-]|]. split; [by intros ? [= <-]|]. done.
    + rewrite (serve_photo_route v e req w i it name Hm Hp Hnd Hin Hi Hname Hne).
      split; [reflexivity|].
      split; [|split; [|split]].
      * rewrite <- sendFile_throws_false. split.
        -- intros Hst.
           destruct (bool_decide_reflect (name ∈ photos w)) as [Hfile|Hfile];
             destruct (sendFile_throws v); simpl in Hst; try done.
           split; [done|]. by exists name.
        -- intros (Hs & name' & [= <-] & _ & Hfile).
           by rewrite Hs, bool_decide_eq_true_2.
      * intros name' [= <-] _ Hfile Hs%sendFile_throws_false.
        by rewrite Hs, bool_decide_eq_true_2.
      * intros name' [= <-] _ [Hout|Hs%sendFile_throws_true].
        -- by rewrite bool_decide_eq_false_2.
        -- by rewrite Hs, andb_false_r.
      * by intros [?|[= ->]].
  - rewrite (serve_get_inventory_id_photo v e req w i Hm Hp),
      get_inventory_id_photo_eq.
    change (param_id [i]) with i. rewrite Hi, (find_has_id _ _ Hnd Hin), Hname.
    split; [reflexivity|].
    split; [split; [done|by intros (_ & ? & ? & _)]|]. repeat split; done.
Qed.

Lemma X4_photo_served_iff_file_present_witness :
  let w := snd (run main_js
                  [ (good_env, register_req (Str "Laptop") Undefined (Some png)) ]
                  empty_store) in
  serve main_js good_env (Request GET ["inventory"; "1"; "photo"] Body.empty None) w
    = (Response 200 (PhotoFile "1700000000000-123456789.png" "image/jpeg"), w).
Proof.
  intros w.
  pose proof (X4_photo_served_iff_file_present main_js good_env
                (Request GET ["inventory"; "1"; "photo"] Body.empty None) w "1"
                (Item 1 (Str "Laptop") (Str "") (Some "1700000000000-123456789.png")
                      (Str "2025-01-01T00:00:00.000Z") Undefined)
                eq_refl eq_refl) as H.
  destruct (serve main_js good_env _ w) as [r w1].
  destruct H as (-> & _ & Hfound & _);
    [apply NoDup_singleton | apply list_elem_of_here | reflexivity |].
  f_equal. apply (Hfound _ eq_refl); [discriminate| |discriminate].
  assert (bool_decide ("1700000000000-123456789.png" ∈ photos w) = true) as Hb
    by (by vm_compute).
  by apply bool_decide_eq_true in Hb.
Defined.

(** ** Replacing a photo *)

(** X5: [PUT /inventory/:id/photo] with an accepted upload on a stored
    record, with a working disk, answers 200 with the record now naming the
    new file and changes no other field and no other record; the old file
    is gone from the photo directory; the photo route then sends the new
    file (or answers 404, where [res.sendFile] throws), unless the new name is the record's
    old one, in which case the file just stored is the one removed and the
    route answers 404. *)
Theorem X5_replace_photo
    (v : variant) (e e' : env) (req one : request) (w : world)
    (i j : string) (n : nat) (it : item) (f : upload) :
  req_method req = PUT ->
  match_path [Lit "inventory"; Param; Lit "photo"] (path req) = Some [i] ->
  photo_part req = Some f -> accepted f ->
  write_ok e = true ->
  ids_distinct w ->
  inventory_of w !! n = Some it ->
  parseInt i = Some (id it) ->
  req_method one = GET ->
  match_path [Lit "inventory"; Param; Lit "photo"] (path one) = Some [j] ->
  parseInt j = Some (id it) ->
  let new := uniqueName e f in
  let it' := set_photo_filename (Some new) it in
  let '(r, w1) := serve v e req w in
  r = Response 200 (MessageJson "Photo updated successfully" (Some it')) /\
  inventory_of w1 = <[n := it']> (inventory_of w) /\
  (forall old, photo_filename it = Some old -> old <> "" -> old ∉ photos w1) /\
  (photo_filename it <> Some new ->
     new ∈ photos w1 /\
     (v <> swagger_js false ->
      serve v e' one w1 = (Response 200 (PhotoFile new "image/jpeg"), w1)) /\
     (v = swagger_js false ->
      serve v e' one w1 = (Response 404 (ErrorJson "Photo file not found"), w1))) /\
  (photo_filename it = Some new ->
     serve v e' one w1 = (Response 404 (ErrorJson "Photo file not found"), w1)).
Proof.
  intros Hm Hp Hf Hacc He Hnd Hn Hi Hgm Hgp Hj new it'.
  rewrite (serve_put_photo_stored v e req w i n it f Hm Hp Hf Hacc Hnd Hn Hi), He.
  cbv zeta. fold new. fold it'.
  assert (Hnew : new <> "") by apply uniqueName_nonempty.
  set (w1 := World _ _).
  assert (inventory_of w1 = <[n := it']> (inventory_of w)) as Hinv by reflexivity.
  assert (photos w1 =
          match photo_filename it with
          | Some old => if String.eqb old "" then {[new]} ∪ photos w
                        else ({[new]} ∪ photos w) ∖ {[old]}
          | None => {[new]} ∪ photos w
          end) as Hphotos.
  { unfold w1. cbn [photos]. by rewrite photos_unlink_photo_of. }
  assert (ids_distinct w1) as Hnd1.
  { unfold ids_distinct. rewrite Hinv, list_fmap_insert. simpl.
    rewrite list_insert_id; [exact Hnd|]. by rewrite list_lookup_fmap, Hn. }
  assert (it' ∈ inventory_of w1) as Hin1.
  { rewrite Hinv. apply list_elem_of_lookup. exists n.
    apply list_lookup_insert_eq. by eapply lookup_lt_Some. }
  pose proof (serve_photo_route v e' one w1 j it' new Hgm Hgp Hnd1 Hin1 Hj eq_refl Hnew)
    as Hroute.
  split; [reflexivity|]. split; [exact Hinv|]. split; [|split].
  - intros old Hold Hne. rewrite Hphotos, Hold.
    destruct (String.eqb_spec old ""); [done|].
    rewrite elem_of_difference, elem_of_singleton. by intros [_ ?].
  - intros Hdiff.
    assert (new ∈ photos w1) as Hin.
    { rewrite Hphotos. destruct (photo_filename it) as [old|].
      - destruct (String.eqb old "").
        + apply elem_of_union_l. by apply elem_of_singleton.
        + rewrite elem_of_difference, elem_of_singleton. split.
          * apply elem_of_union_l. by apply elem_of_singleton.
          * intros ->. by apply Hdiff.
      - apply elem_of_union_l. by apply elem_of_singleton. }
    rewrite Hroute, bool_decide_eq_true_2 by exact Hin.
    rewrite <- sendFile_throws_false, <- sendFile_throws_true.
    split; [exact Hin|]. split; by intros ->.
  - intros Hsame.
    assert (new ∉ photos w1) as Hout.
    { rewrite Hphotos, Hsame. destruct (String.eqb_spec new ""); [done|].
      rewrite elem_of_difference, elem_of_singleton. by intros [_ ?]. }
    by rewrite Hroute, bool_decide_eq_false_2.
Qed.

Lemma X5_replace_photo_witness :
  let later := Env true 1700000000500 42 "2025-01-01T00:00:00.500Z" false in
  let jpg := Upload "image/jpeg" 4096 ".jpg" in
  let w := snd (run main_js
                  [ (good_env, register_req (Str "Laptop") Undefined (Some png)) ]
                  empty_store) in
  let '(r, w1) := serve main_js later (put_photo_req "1" (Some jpg)) w in
  r = Response 200
        (MessageJson "Photo updated successfully"
           (Some (Item 1 (Str "Laptop") (Str "") (Some "1700000000500-42.jpg")
                       (Str "2025-01-01T00:00:00.000Z") Undefined))) /\
  ("1700000000000-123456789.png" ∉ photos w1) /\
  serve main_js good_env (Request GET ["inventory"; "1"; "photo"] Body.empty None) w1
    = (Response 200 (PhotoFile "1700000000500-42.jpg" "image/jpeg"), w1).
Proof.
  intros later jpg w.
  pose proof (X5_replace_photo main_js later good_env
                (put_photo_req "1" (Some jpg))
                (Request GET ["inventory"; "1"; "photo"] Body.empty None) w
                "1" "1" 0%nat
                (Item 1 (Str "Laptop") (Str "") (Some "1700000000000-123456789.png")
                      (Str "2025-01-01T00:00:00.000Z") Undefined) jpg
                eq_refl eq_refl eq_refl) as H.
  destruct (serve main_js later (put_photo_req "1" (Some jpg)) w) as [r w1].
  destruct H as (Hr & _ & Hold & Hnew & _);
    [ split; [reflexivity | unfold fileSize; simpl; lia]
    | reflexivity | apply NoDup_singleton | reflexivity | reflexivity
    | reflexivity | reflexivity | reflexivity | ].
  split; [exact Hr|]. split; [by apply (Hold _ eq_refl)|].
  apply Hnew; discriminate.
Defined.

(** ** Registering *)

(** X6: a registration with a name and an accepted photo (or none), served
    with a working disk on a store with distinct ids, can be read back: GET
    with the id printed in the 201 answers 200 with the record; when a photo
    came along, the record names the stored file, its photo_url is the URL
    of the photo route for the printed id, and that route sends the file as
    image/jpeg (or answers 404 "Photo file not found", where [res.sendFile]
    is given a path that is not absolute and throws). *)
Theorem X6_registered_record_reads_back
    (v : variant) (e e' : env) (req : request) (w : world) :
  req_method req = POST -> is_Some (match_path [Lit "register"] (path req)) ->
  truthy (Body.inventory_name (body req)) = true ->
  (forall f, photo_part req = Some f -> accepted f) ->
  write_ok e = true ->
  ids_distinct w ->
  let file := uniqueName e <$> photo_part req in
  let it := newItem v e req file (next_id (inventory_of w)) in
  let printed := string_of_Z (id it) in
  let photo_route := ["inventory"; printed; "photo"] in
  let '(r, w1) := serve v e req w in
  r = Response 201 (MessageJson "Device registered successfully" (Some it)) /\
  inventory_of w1 = (inventory_of w ++ [it])%list /\
  serve v e' (get_req printed) w1
    = (Response 200 (ItemJson (set_photo_url (derived_photo_url it) it)), w1) /\
  (forall f, photo_part req = Some f ->
     derived_photo_url it = Str (url_of photo_route) /\
     (v <> swagger_js false ->
      serve v e' (Request GET photo_route Body.empty None) w1
        = (Response 200 (PhotoFile (uniqueName e f) "image/jpeg"), w1)) /\
     (v = swagger_js false ->
      serve v e' (Request GET photo_route Body.empty None) w1
        = (Response 404 (ErrorJson "Photo file not found"), w1))).
Proof.
  intros Hm Hp Hname Hacc He Hnd file it printed photo_route.
  rewrite (serve_post_register v e req w Hm Hp).
  assert (upload_single e (photo_part req) w
          = (inr file, World (data_file w)
                         (match photo_part req with
                          | Some f => {[uniqueName e f]} ∪ photos w
                          | None => photos w
                          end))) as ->.
  { unfold file. destruct (photo_part req) as [f|] eqn:Hf.
    - by rewrite (upload_single_accepted e f w (Hacc f eq_refl)).
    - by destruct w. }
  rewrite post_register_eq, Hname, He. cbv zeta.
  rewrite !inventory_of_data_file. simpl data_file.
  rewrite <- !inventory_of_data_file. fold it.
  set (w1 := World _ _).
  assert (inventory_of w1 = (inventory_of w ++ [it])%list) as Hinv by reflexivity.
  assert (find (has_id (Some (id it))) (inventory_of w1) = Some it) as Hfind.
  { rewrite Hinv. apply find_has_id.
    - by apply ids_distinct_register.
    - apply elem_of_app. right. apply list_elem_of_here. }
  split; [reflexivity|]. split; [exact Hinv|]. split.
  - rewrite (serve_get_inventory_id v e' _ w1 printed);
      [|reflexivity|apply match_path_id, string_of_Z_nonempty].
    rewrite get_inventory_id_eq. change (param_id [printed]) with printed.
    unfold printed. by rewrite parseInt_string_of_Z, Hfind.
  - intros f Hf.
    assert (photo_filename it = Some (uniqueName e f)) as Hphoto.
    { unfold it, file. by rewrite Hf. }
    assert (String.eqb (uniqueName e f) "" = false) as Hne.
    { apply String.eqb_neq, uniqueName_nonempty. }
    split.
    + unfold derived_photo_url, has_photo_filename. rewrite Hphoto. simpl truthy.
      rewrite Hne. reflexivity.
    + rewrite (serve_get_inventory_id_photo v e' _ w1 printed);
        [|reflexivity|apply match_path_id_photo, string_of_Z_nonempty].
      rewrite get_inventory_id_photo_eq. change (param_id [printed]) with printed.
      unfold printed. rewrite parseInt_string_of_Z, Hfind, Hphoto, Hne.
      rewrite bool_decide_eq_true_2.
      * rewrite <- sendFile_throws_false, <- sendFile_throws_true.
        split; by intros ->.
      * unfold w1. simpl. rewrite Hf. apply elem_of_union_l. by apply elem_of_singleton.
Qed.

Lemma X6_registered_record_reads_back_witness :
  let name := "1700000000000-123456789.png" in
  let it := Item 1 (Str "Laptop") (Str "") (Some name)
                 (Str "2025-01-01T00:00:00.000Z") Undefined in
  let '(r, w1) := serve main_js good_env
                    (register_req (Str "Laptop") Undefined (Some png)) empty_store in
  r = Response 201 (MessageJson "Device registered successfully" (Some it)) /\
  serve main_js good_env (get_req "1") w1
    = (Response 200 (ItemJson (set_photo_url (Str "/inventory/1/photo") it)), w1) /\
  serve main_js good_env (Request GET ["inventory"; "1"; "photo"] Body.empty None) w1
    = (Response 200 (PhotoFile name "image/jpeg"), w1).
Proof.
  intros name it.
  pose proof (X6_registered_record_reads_back main_js good_env good_env
                (register_req (Str "Laptop") Undefined (Some png)) empty_store
                eq_refl (ex_intro _ [] eq_refl) eq_refl) as H.
  destruct (serve main_js good_env _ empty_store) as [r w1].
  destruct H as (Hr & _ & Hget & Hphoto);
    [ intros f [= <-]; split; [reflexivity | unfold fileSize; simpl; lia]
    | reflexivity | apply NoDup_nil_2 | ].
  split; [exact Hr|]. split; [exact Hget|].
  refine (proj1 (proj2 (Hphoto png eq_refl)) _). discriminate.
Defined.

(** X7: a registration whose name is missing or empty is answered 400 "Name
    is required" and leaves the record file as it was; but an accepted photo
    sent with it has already been stored and stays in the photo directory. *)
Theorem X7_nameless_registration_keeps_the_upload
    (v : variant) (e : env) (req : request) (w : world) :
  req_method req = POST -> is_Some (match_path [Lit "register"] (path req)) ->
  truthy (Body.inventory_name (body req)) = false ->
  (forall f, photo_part req = Some f -> accepted f) ->
  let '(r, w1) := serve v e req w in
  r = Response 400 (ErrorJson "Name is required") /\
  data_file w1 = data_file w /\
  (photo_part req = None -> w1 = w) /\
  (forall f, photo_part req = Some f ->
     photos w1 = {[uniqueName e f]} ∪ photos w).
Proof.
  intros Hm Hp Hname Hacc. rewrite (serve_post_register v e req w Hm Hp).
  destruct (photo_part req) as [f|] eqn:Hf.
  - rewrite (upload_single_accepted e f w (Hacc f eq_refl)).
    rewrite post_register_eq, Hname.
    repeat split; [done|]. by intros ? [= <-].
  - simpl. rewrite post_register_eq, Hname. repeat split; done.
Qed.

Lemma X7_nameless_registration_keeps_the_upload_witness :
  let '(r, w1) := serve main_js good_env
                    (register_req (Str "") (Str "no name") (Some png)) empty_store in
  r = Response 400 (ErrorJson "Name is required") /\
  data_file w1 = Absent /\
  photos w1 = {[ "1700000000000-123456789.png" ]} ∪ ∅.
Proof.
  pose proof (X7_nameless_registration_keeps_the_upload main_js good_env
                (register_req (Str "") (Str "no name") (Some png)) empty_store
                eq_refl (ex_intro _ [] eq_refl) eq_refl) as H.
  destruct (serve main_js good_env _ empty_store) as [r w1].
  destruct H as (Hr & Hfile & _ & Hphotos);
    [ intros f [= <-]; split; [reflexivity | unfold fileSize; simpl; lia] | ].
  split; [exact Hr|]. split; [exact Hfile|]. exact (Hphotos png eq_refl).
Defined.

(** ** Requests no route takes *)

Lemma dispatch_mount_root prefix name rest e req w :
  path req = [] ->
  dispatch (Mount prefix name :: rest) None e req w = dispatch rest None e req w.
Proof. intros Hp. simpl. by rewrite Hp. Qed.

Lemma dispatch_respond h rest e req w :
  dispatch (Respond h :: rest) None e req w = h w.
Proof. reflexivity. Qed.

(** X8: a request whose path is not under /docs and that no route takes is
    answered 405 "Method Not Allowed" and changes nothing, when its method
    is neither GET nor HEAD; so is every request of a method none of the
    routes names.  A route takes a request of its method whose path it
    matches, a slash at the end of the path and the case of the letters set
    aside.  GET and HEAD are left out because [express.static] answers
    them when the path names a file of the working directory. *)
Theorem X8_unrouted_request_is_a_405
    (v : variant) (e : env) (req : request) (w : world) :
  (forall x p, path req = x :: p -> lower x <> lower "docs") ->
  req_method req = PATCH \/
  (req_method req <> GET /\ req_method req <> HEAD /\
   Forall (passes_over req) (routes v)) ->
  serve v e req w = (Response 405 (ErrorJson "Method Not Allowed"), w).
Proof.
  intros Hdocs Hunrouted.
  assert (Forall (passes_over req) (routes v)) as Hroutes.
  { destruct Hunrouted as [Hm|(_ & _ & H)]; [|exact H].
    unfold routes. repeat (apply Forall_cons; split); try apply Forall_nil;
      unfold passes_over; try exact I; left; by rewrite Hm. }
  clear Hunrouted.
  assert (dispatch (routes v) None e req w
          = (Response 405 (ErrorJson "Method Not Allowed"), w)) as Hfall.
  { unfold routes in *.
    repeat match goal with
           | H : Forall _ (_ :: _) |- _ =>
               let Hl := fresh "Hl" in apply Forall_cons_1 in H as [Hl H];
               unfold passes_over in Hl;
               try rewrite (dispatch_route_skip _ _ _ _ _ _ _ _ Hl)
           end.
    apply dispatch_respond. }
  destruct (path req) as [|x p] eqn:Hpath.
  - unfold serve. destruct v; unfold app, List.app;
      rewrite ?(dispatch_mount_root _ _ _ _ _ _ Hpath), !dispatch_use,
        dispatch_use_error; exact Hfall.
  - unfold serve. destruct v; unfold app, List.app;
      rewrite ?(dispatch_mount_skip _ _ _ _ _ _ x p Hpath) by (by eapply Hdocs);
      rewrite !dispatch_use, dispatch_use_error; exact Hfall.
Qed.

Lemma X8_unrouted_request_is_a_405_witness :
  serve (swagger_js true) good_env (Request DELETE ["inventory"; ""] Body.empty None)
    empty_store
    = (Response 405 (ErrorJson "Method Not Allowed"), empty_store) /\
  serve main_js good_env (Request PATCH ["inventory"; "1"] Body.empty None) empty_store
    = (Response 405 (ErrorJson "Method Not Allowed"), empty_store).
Proof.
  split.
  - apply X8_unrouted_request_is_a_405.
    + intros x p [= <- <-]. discriminate.
    + right. split; [discriminate|]. split; [discriminate|].
      unfold routes. repeat (apply Forall_cons; split); try apply Forall_nil;
        simpl; try (by left); try (by right); exact I.
  - apply X8_unrouted_request_is_a_405.
    + intros x p [= <- <-]. discriminate.
    + by left.
Defined.

(** ** Updating, then reading *)

(** X9: after [PUT /inventory/:id] on a stored record, a GET for the id
    shows the record with the fields of the body written over it when the
    disk took the write, and the record as it was when the disk refused to
    open the file; when the write failed after the open, the record is
    gone with the truncated file and the GET answers 404. *)
Theorem X9_update_reads_back
    (v : variant) (e e' : env) (req one : request) (w : world)
    (i j : string) (n : nat) (it : item) :
  req_method req = PUT ->
  match_path [Lit "inventory"; Param] (path req) = Some [i] ->
  ids_distinct w ->
  inventory_of w !! n = Some it ->
  parseInt i = Some (id it) ->
  req_method one = GET -> match_path [Lit "inventory"; Param] (path one) = Some [j] ->
  parseInt j = Some (id it) ->
  let shown (x : item) := Response 200 (ItemJson (set_photo_url (derived_photo_url it) x)) in
  let w1 := snd (serve v e req w) in
  serve v e' one w1 =
    (if write_ok e then shown (updated (body req) it)
     else if write_opened e then Response 404 (ErrorJson "Device not found")
     else shown it, w1).
Proof.
  intros Hm Hp Hnd Hn Hi Hgm Hgp Hj shown w1.
  assert (it ∈ inventory_of w) as Hin by (by eapply list_elem_of_lookup_2).
  rewrite (serve_get_inventory_id v e' one w1 j Hgm Hgp), get_inventory_id_eq.
  change (param_id [j]) with j. rewrite Hj.
  unfold w1, shown.
  rewrite (serve_put_inventory_id v e req w i Hm Hp), put_inventory_id_eq.
  change (param_id [i]) with i. cbv zeta.
  rewrite Hi, (findIndex_has_id _ n it Hnd Hn).
  destruct (write_ok e); cbn [snd].
  - rewrite (assign_fields_updated _ _ _ _ Hn), inventory_of_stored.
    rewrite (find_has_id _ (updated (body req) it)); [reflexivity| |].
    + rewrite list_fmap_insert. simpl. rewrite list_insert_id; [exact Hnd|].
      by rewrite list_lookup_fmap, Hn.
    + apply list_elem_of_lookup. exists n.
      apply list_lookup_insert_eq. by eapply lookup_lt_Some.
  - rewrite inventory_of_failed_write. destruct (write_opened e); [reflexivity|].
    by rewrite (find_has_id _ _ Hnd Hin).
Qed.

Lemma X9_update_reads_back_witness :
  let stored := Item 1 (Str "Laptop") (Str "old") None
                     (Str "2025-01-01T00:00:00.000Z") Undefined in
  let w := World (Stored [stored]) ∅ in
  let w1 := snd (serve main_js good_env (update_req "1" (Str "Desktop") Undefined) w) in
  let w2 := snd (serve main_js full_disk (update_req "1" (Str "Desktop") Undefined) w) in
  serve main_js good_env (get_req "1") w1
    = (Response 200
         (ItemJson (Item 1 (Str "Desktop") (Str "old") None
                         (Str "2025-01-01T00:00:00.000Z") Null)), w1) /\
  serve main_js good_env (get_req "1") w2
    = (Response 404 (ErrorJson "Device not found"), w2).
Proof.
  intros stored w w1 w2. split.
  - apply (X9_update_reads_back main_js good_env good_env
             (update_req "1" (Str "Desktop") Undefined) (get_req "1") w
             "1" "1" 0%nat stored);
      try reflexivity. apply NoDup_singleton.
  - apply (X9_update_reads_back main_js full_disk good_env
             (update_req "1" (Str "Desktop") Undefined) (get_req "1") w
             "1" "1" 0%nat stored);
      try reflexivity. apply NoDup_singleton.
Defined.

(** ** What a request does to the stored ids *)

Lemma ids_step_unchanged e w r w' :
  assigned_id r = None -> deleted_id r = None -> r <> save_error ->
  id <$> inventory_of w' = id <$> inventory_of w -> ids_step e w (r, w').
Proof.
  intros Ha Hd Hr Hw. unfold ids_step. cbn [fst snd].
  by rewrite Ha, Hd, Hw, bool_decide_eq_false_2.
Qed.

Lemma ids_step_failed e w w' :
  inventory_of w' = inventory_of w -> ids_step e w (save_error, failed_write e w').
Proof.
  intros Hw. unfold ids_step. cbn [fst snd].
  change (assigned_id save_error) with (@None Z).
  change (deleted_id save_error) with (@None Z). cbv iota.
  rewrite bool_decide_eq_true_2 by done.
  rewrite inventory_of_failed_write, Hw. by destruct (write_opened e).
Qed.

Lemma ids_step_assigned e w r w' k :
  assigned_id r = Some k ->
  id <$> inventory_of w' = ((id <$> inventory_of w) ++ [k])%list -> ids_step e w (r, w').
Proof. intros Ha Hw. unfold ids_step. simpl. by rewrite Ha, Hw. Qed.

Lemma ids_step_deleted e w r w' k n :
  assigned_id r = None -> deleted_id r = Some k ->
  (id <$> inventory_of w) !! n = Some k ->
  id <$> inventory_of w' = delete n (id <$> inventory_of w) -> ids_step e w (r, w').
Proof. intros Ha Hd Hn Hw. unfold ids_step. simpl. rewrite Ha, Hd. eauto. Qed.

Lemma unlink_photo_of_inventory it w :
  inventory_of (snd (unlink_photo_of it w)) = inventory_of w.
Proof.
  rewrite !inventory_of_data_file. by rewrite unlink_photo_of_data_file.
Qed.

Lemma post_register_ids_step v e req params file w w' :
  inventory_of w' = inventory_of w ->
  ids_step e w (post_register v e req params file w').
Proof.
  intros Hw. rewrite post_register_eq.
  destruct (truthy _); [|by apply ids_step_unchanged; rewrite ?Hw]. cbv zeta.
  destruct (write_ok e); [|by apply ids_step_failed].
  eapply ids_step_assigned; [reflexivity|].
  by rewrite inventory_of_stored, fmap_app, Hw.
Qed.

Lemma put_inventory_id_ids_step e req params file w w' :
  inventory_of w' = inventory_of w ->
  ids_step e w (put_inventory_id e req params file w').
Proof.
  intros Hw. rewrite put_inventory_id_eq. cbv zeta.
  destruct (findIndex _ _) as [n|]; [|by apply ids_step_unchanged; rewrite ?Hw].
  destruct (write_ok e); [|by apply ids_step_failed].
  apply ids_step_unchanged.
  - unfold assigned_id. simpl. by destruct (_ !! _).
  - unfold deleted_id. simpl. by destruct (_ !! _).
  - done.
  - by rewrite inventory_of_stored, assign_fields_ids, Hw.
Qed.

Lemma put_inventory_id_photo_ids_step e req params file w w' :
  inventory_of w' = inventory_of w ->
  ids_step e w (put_inventory_id_photo e req params file w').
Proof.
  intros Hw. rewrite put_inventory_id_photo_eq.
  destruct file as [filename|]; [|by apply ids_step_unchanged; rewrite ?Hw]. cbv zeta.
  destruct (findIndex _ _) as [n|]; [|by apply ids_step_unchanged; rewrite ?Hw].
  destruct (write_ok e).
  - apply ids_step_unchanged.
    + unfold assigned_id. simpl. by destruct (_ !! _).
    + unfold deleted_id. simpl. by destruct (_ !! _).
    + done.
    + rewrite inventory_of_stored, (list_fmap_alter id _ (fun x => x)).
      * by rewrite list_alter_id, Hw.
      * by apply Forall_forall.
  - apply ids_step_failed. by rewrite unlink_photo_of_inventory.
Qed.

Lemma delete_inventory_id_ids_step e req params file w w' :
  inventory_of w' = inventory_of w ->
  ids_step e w (delete_inventory_id e req params file w').
Proof.
  intros Hw. rewrite delete_inventory_id_eq. cbv zeta.
  destruct (findIndex _ _) as [n|] eqn:Hn; [|by apply ids_step_unchanged; rewrite ?Hw].
  apply findIndex_Some in Hn as (x & Hx & _).
  destruct (write_ok e).
  - rewrite Hx. apply (ids_step_deleted _ _ _ _ (id x) n); [done|done| |].
    + by rewrite <- Hw, list_lookup_fmap, Hx.
    + by rewrite inventory_of_stored, list_fmap_delete, Hw.
  - apply ids_step_failed. by rewrite unlink_photo_of_inventory.
Qed.

Lemma serve_ids_step v e req w : ids_step e w (serve v e req w).
Proof.
  unfold serve.
  apply (dispatch_post e req (fun w' => inventory_of w' = inventory_of w)
           (ids_step e w)); auto.
  - intros [er|] w' Hw'; by apply ids_step_unchanged; rewrite ?Hw'.
  - destruct v; stack_obligations; try exact I;
      try (by intros w' Hw'; apply ids_step_unchanged; rewrite ?Hw');
      try (intros [c|] r w' Hw'; simpl; try done;
           destruct (String.eqb c _); try done; intros [= <-];
           by apply ids_step_unchanged; rewrite ?Hw');
      intros Hm params Hp;
      (split; [intros _ f w' _ Hw';
               split; by rewrite ?store_photo_inventory, ?try_unlink_inventory|]);
      intros file w' Hup Hnone Hw';
      auto using post_register_ids_step, put_inventory_id_ids_step,
        put_inventory_id_photo_ids_step, delete_inventory_id_ids_step.
    all: rewrite ?get_inventory_eq, ?get_inventory_id_eq, ?post_search_eq,
           ?get_inventory_id_photo_eq;
      unfold send_page, respond, ret;
      repeat case_match; by apply ids_step_unchanged; rewrite ?Hw'.
Qed.

(** X10: whatever the request, the list of stored ids changes in one of
    four ways: a 201 appends the id it assigned (which is the one
    [getNextId] computes), an answered deletion drops the id it reports, a
    500 "Data save error" whose write had opened the record file leaves no
    id at all, and every other answer leaves the list as it was. *)
Theorem X10_how_the_stored_ids_change
    (v : variant) (e : env) (req : request) (w : world) :
  let '(r, w1) := serve v e req w in
  let ids := id <$> inventory_of w in
  let ids1 := id <$> inventory_of w1 in
  (forall k, assigned_id r = Some k ->
     k = next_id (inventory_of w) /\ ids1 = (ids ++ [k])%list) /\
  (forall k, assigned_id r = None -> deleted_id r = Some k ->
     exists n, ids !! n = Some k /\ ids1 = delete n ids) /\
  (assigned_id r = None -> deleted_id r = None ->
     (r = Response 500 (ErrorJson "Data save error") -> write_opened e = true ->
        ids1 = []) /\
     (r <> Response 500 (ErrorJson "Data save error") \/ write_opened e = false ->
        ids1 = ids)).
Proof.
  pose proof (serve_ids_step v e req w) as Hstep.
  pose proof (serve_assigned_id v e req w) as Hnext.
  destruct (serve v e req w) as [r w1]. unfold ids_step in Hstep. simpl in *.
  split; [|split].
  - intros k Hk. rewrite Hk in Hstep. split; [by apply Hnext | exact Hstep].
  - intros k Ha Hd. by rewrite Ha, Hd in Hstep.
  - intros Ha Hd. rewrite Ha, Hd in Hstep. split.
    + intros -> Ho. rewrite Ho in Hstep. by rewrite bool_decide_eq_true_2 in Hstep.
    + intros [Hr|Ho].
      * by rewrite bool_decide_eq_false_2 in Hstep.
      * by rewrite Ho, andb_false_r in Hstep.
Qed.

Lemma X10_how_the_stored_ids_change_witness :
  let w := snd (run main_js
                  [ (good_env, register_req (Str "Laptop") Undefined None);
                    (good_env, register_req (Str "Phone") Undefined None) ]
                  empty_store) in
  let '(r, w1) := serve main_js good_env (delete_req "1") w in
  exists n, (id <$> inventory_of w) !! n = Some 1 /\
            id <$> inventory_of w1 = delete n (id <$> inventory_of w).
Proof.
  intros w.
  pose proof (X10_how_the_stored_ids_change main_js good_env
                (delete_req "1") w) as H.
  destruct (serve main_js good_env (delete_req "1") w) as [r w1] eqn:Hserve.
  destruct H as (_ & Hdel & _).
  assert (r = fst (serve main_js good_env (delete_req "1") w)) as Hr
    by (by rewrite Hserve).
  apply (Hdel 1); rewrite Hr; reflexivity.
Defined.

(** ** Ids and the number of registrations *)

Lemma registrations_cons r rs :
  registrations (r :: rs)
    = (if assigned_id r is Some _ then 1 else 0) + registrations rs.
Proof.
  unfold registrations. rewrite filter_cons.
  destruct (assigned_id r); case_decide as H; simpl length; try lia.
  - destruct H. by eexists.
  - by destruct H as [? ?].
Qed.

Lemma registrations_nonneg rs : 0 <= registrations rs.
Proof. unfold registrations. lia. Qed.

Lemma next_id_le (inv : list item) (B : Z) :
  0 <= B -> (forall k, k ∈ id <$> inv -> k <= B) -> next_id inv <= B + 1.
Proof.
  intros HB Hle. destruct (next_id_spec inv) as [Hempty Hmax].
  destruct inv as [|a rest]; [rewrite Hempty by done; lia|].
  destruct Hmax as [Hin _]; [done|]. specialize (Hle _ Hin). lia.
Qed.

Lemma run_ids_bounded v t w B :
  0 <= B -> (forall k, k ∈ id <$> inventory_of w -> k <= B) ->
  forall k, k ∈ id <$> inventory_of (snd (run v t w)) ->
            k <= B + registrations (fst (run v t w)).
Proof.
  revert w B. induction t as [|[e req] t IH]; intros w B HB Hle k Hk.
  - simpl in *. specialize (Hle k Hk). unfold registrations. simpl. lia.
  - simpl in Hk |- *.
    pose proof (serve_ids_step v e req w) as Hstep.
    pose proof (serve_assigned_id v e req w) as Hnext.
    destruct (serve v e req w) as [r w1]. unfold ids_step in Hstep. simpl in *.
    specialize (IH w1). destruct (run v t w1) as [rs w2]. simpl in *.
    rewrite registrations_cons.
    destruct (assigned_id r) as [a|].
    + specialize (Hnext a eq_refl).
      assert (k <= (B + 1) + registrations rs); [|lia].
      apply IH; [lia| |exact Hk]. intros x Hx. rewrite Hstep in Hx.
      apply elem_of_app in Hx as [Hx|Hx].
      * specialize (Hle x Hx). lia.
      * apply list_elem_of_singleton in Hx. subst.
        by apply next_id_le.
    + assert (k <= B + registrations rs); [|lia].
      apply IH; [lia| |exact Hk]. intros x Hx.
      destruct (deleted_id r).
      * destruct Hstep as (n & _ & Hids). rewrite Hids in Hx.
        apply Hle. by eapply list_elem_of_delete_inv.
      * rewrite Hstep in Hx. destruct (bool_decide _ && _); [|by apply Hle].
        by apply elem_of_nil in Hx.
Qed.

(** X11: in every run from the empty store, every stored id lies between 1
    and the number of registrations answered 201 so far. *)
Theorem X11_ids_bounded_by_registrations
    (v : variant) (t : list (env * request)) (it : item) :
  let '(rs, w) := run v t empty_store in
  it ∈ inventory_of w -> 1 <= id it <= registrations rs.
Proof.
  pose proof (run_well_formed v t empty_store well_formed_empty_store) as Hwf.
  pose proof (run_ids_bounded v t empty_store 0) as Hle.
  destruct (run v t empty_store) as [rs w]. simpl in *.
  intros Hin. split.
  - destruct Hwf as [_ Hitems]. rewrite Forall_forall in Hitems.
    by destruct (Hitems it Hin).
  - apply (Hle (Z.le_refl 0)).
    + intros k Hk. by apply elem_of_nil in Hk.
    + by apply list_elem_of_fmap_2.
Qed.

Lemma X11_ids_bounded_by_registrations_witness :
  let t := [ (good_env, register_req (Str "Laptop") Undefined None);
             (bad_disk, register_req (Str "Phone") Undefined None);
             (good_env, register_req (Str "Tablet") Undefined None) ] in
  let tablet := Item 2 (Str "Tablet") (Str "") None
                     (Str "2025-01-01T00:00:00.000Z") Undefined in
  registrations (fst (run main_js t empty_store)) = 2 /\
  1 <= id tablet <= 2.
Proof.
  intros t tablet. split; [reflexivity|].
  pose proof (X11_ids_bounded_by_registrations main_js t tablet) as H.
  simpl in H. apply H.
  apply list_elem_of_further, list_elem_of_here.
Defined.

(** ** Names of stored photos *)

Lemma dash_free_uint (d : Decimal.uint) :
  dash_free (NilEmpty.string_of_uint d) = true.
Proof. induction d; simpl; auto. Qed.

Lemma dash_free_string_of_Z (n : Z) : 0 <= n -> dash_free (string_of_Z n) = true.
Proof.
  intros Hn. unfold string_of_Z. destruct n as [|p|p]; [reflexivity| |lia].
  simpl. unfold NilZero.string_of_uint.
  pose proof (dash_free_uint (Pos.to_uint p)) as H.
  by destruct (Pos.to_uint p).
Qed.

(** Two strings without a hyphen, each followed by a hyphen and more: the
    first hyphen tells where each ends. *)
Lemma split_at_dash (s1 s2 t1 t2 : string) :
  dash_free s1 = true -> dash_free s2 = true ->
  s1 +:+ String "-" t1 = s2 +:+ String "-" t2 -> s1 = s2 /\ t1 = t2.
Proof.
  revert s2. induction s1 as [|c s1 IH]; intros [|c' s2]; simpl.
  - intros _ _ [= ->]. done.
  - intros _ Hd [= <- _]. simpl in Hd. discriminate.
  - intros Hd _ [= -> _]. simpl in Hd. discriminate.
  - intros [_ H1]%andb_prop [_ H2]%andb_prop [= -> Hrest].
    destruct (IH s2 H1 H2 Hrest) as [-> ->]. done.
Qed.

Lemma string_of_Z_inj (a b : Z) : string_of_Z a = string_of_Z b -> a = b.
Proof.
  intros H. apply (f_equal parseInt) in H.
  rewrite !parseInt_string_of_Z in H. congruence.
Qed.

Lemma length_append (s t : string) :
  String.length (s +:+ t) = (String.length s + String.length t)%nat.
Proof. induction s as [|c s IH]; simpl; [done|]. by rewrite IH. Qed.

Lemma append_cancel_r (s1 s2 x : string) : s1 +:+ x = s2 +:+ x -> s1 = s2.
Proof.
  intros H.
  assert (String.length s1 = String.length s2) as Hlen.
  { apply (f_equal String.length) in H. rewrite !length_append in H. lia. }
  revert s2 H Hlen. induction s1 as [|c s1 IH]; intros [|c' s2]; simpl; try done.
  intros [= -> H] [= Hlen]. f_equal. by apply IH.
Qed.

(** X12: the names [storage.filename] gives to stored uploads tell the
    clock readings apart: with non-negative clock readings, two names are
    equal only if the readings are; and for uploads with the same extension
    only if the random numbers are equal too. *)
Theorem X12_upload_names_differ_with_the_clock
    (e1 e2 : env) (f1 f2 : upload) :
  0 <= now e1 -> 0 <= now e2 ->
  uniqueName e1 f1 = uniqueName e2 f2 ->
  now e1 = now e2 /\ (extname f1 = extname f2 -> random e1 = random e2).
Proof.
  intros H1 H2 Heq. unfold uniqueName in Heq.
  apply split_at_dash in Heq as [Hnow Hrest];
    [|by apply dash_free_string_of_Z..].
  split; [by apply string_of_Z_inj|].
  intros Hext. rewrite Hext in Hrest.
  by apply append_cancel_r, string_of_Z_inj in Hrest.
Qed.

Lemma X12_upload_names_differ_with_the_clock_witness :
  let e1 := Env true 1700000000000 7 "a" false in
  let e2 := Env false 1700000000000 7 "b" false in
  now e1 = now e2 /\ (extname png = extname png -> random e1 = random e2).
Proof.
  intros e1 e2.
  apply (X12_upload_names_differ_with_the_clock e1 e2 png png);
    [unfold e1; simpl; lia | unfold e2; simpl; lia | reflexivity].
Defined.

(** ** The size limit *)

(** X13: an image upload above the size limit, sent to [/register] or to
    [/inventory/:id/photo], is answered by the final handler with status
    500: the error-handling layer that answers 400 "File too large. Maximum
    5MB" stands before the routes, where an error raised by a route does
    not come by.  The record file stays as it was; of the photo directory
    the file written under the generated name is removed again, so that
    nothing changes unless a photo had that very name. *)
Theorem X13_oversized_upload_is_answered_500
    (v : variant) (e : env) (req : request) (w : world) (f : upload) :
  (req_method req = POST /\ is_Some (match_path [Lit "register"] (path req))) \/
  (req_method req = PUT /\
   is_Some (match_path [Lit "inventory"; Param; Lit "photo"] (path req))) ->
  photo_part req = Some f -> fileFilter f = true -> fileSize < size f ->
  fst (upload_single e (photo_part req) w) = inl (MulterError "LIMIT_FILE_SIZE") /\
  multer_error_middleware (MulterError "LIMIT_FILE_SIZE")
    = Some (Response 400 (ErrorJson "File too large. Maximum 5MB")) /\
  serve v e req w
    = (Response 500 DefaultErrorPage,
       World (data_file w) (photos w ∖ {[uniqueName e f]})) /\
  (uniqueName e f ∉ photos w -> serve v e req w = (Response 500 DefaultErrorPage, w)).
Proof.
  intros Hroute Hf Hfilter Hsize.
  pose proof (upload_single_oversized e f w Hfilter Hsize) as Hup.
  rewrite <- Hf in Hup at 1.
  split; [by rewrite Hup|]. split; [reflexivity|].
  destruct (serve_upload_route v e req w Hroute) as (h & params & ->).
  rewrite Hup. split; [reflexivity|].
  intros Hout. rewrite (difference_absent _ _ Hout). by destruct w.
Qed.

Lemma X13_oversized_upload_is_answered_500_witness :
  let big := Upload "image/png" (6 * 1024 * 1024) ".png" in
  serve (swagger_js true) good_env (register_req (Str "Laptop") Undefined (Some big))
    empty_store
    = (Response 500 DefaultErrorPage, empty_store).
Proof.
  intros big.
  apply (X13_oversized_upload_is_answered_500 (swagger_js true) good_env
           (register_req (Str "Laptop") Undefined (Some big)) empty_store big);
    [left; split; [reflexivity | by eexists] | reflexivity | reflexivity | reflexivity
    | apply not_elem_of_empty].
Defined.

(** ** /search with a numeric id *)

(** X14: [/search] with a JSON integer as id (in the range where a
    number is printed digit for digit) answers what [GET /inventory/:id]
    answers for the number's decimal form, provided has_photo is not
    "true"; except for the number 0, which counts as no id and is answered
    400 "ID is required". *)
Theorem X14_search_by_number
    (v : variant) (e e' : env) (req : request) (w : world) (k : Z) :
  req_method req = POST -> is_Some (match_path [Lit "search"] (path req)) ->
  Body.id (body req) = Num k -> - 2 ^ 53 < k < 2 ^ 53 ->
  Body.has_photo (body req) <> Str "true" ->
  serve v e req w =
    if k =? 0 then (Response 400 (ErrorJson "ID is required"), w)
    else serve v e' (get_req (string_of_Z k)) w.
Proof.
  intros Hm Hp Hid _ Hhp.
  rewrite (serve_post_search v e req w Hm Hp), post_search_eq, Hid. simpl truthy.
  destruct (k =? 0); simpl negb; cbv iota; [reflexivity|].
  rewrite (serve_get_inventory_id v e' _ w (string_of_Z k));
    [|reflexivity|apply match_path_id, string_of_Z_nonempty].
  rewrite get_inventory_id_eq. change (param_id [?i]) with i.
  change (ToString (Num k)) with (string_of_Z k).
  destruct (find _ _) as [x|]; [|reflexivity].
  cbv zeta. by rewrite bool_decide_eq_false_2.
Qed.

Lemma X14_search_by_number_witness :
  let w := snd (run main_js [ (good_env, register_req (Str "Laptop") Undefined None) ]
                  empty_store) in
  serve main_js good_env (search_req (Num 1) Undefined) w
    = serve main_js good_env (get_req "1") w /\
  serve main_js good_env (search_req (Num 0) Undefined) w
    = (Response 400 (ErrorJson "ID is required"), w).
Proof.
  intros w. split.
  - apply (X14_search_by_number main_js good_env good_env
             (search_req (Num 1) Undefined) w 1);
      [reflexivity | by eexists | reflexivity | lia | discriminate].
  - apply (X14_search_by_number main_js good_env good_env
             (search_req (Num 0) Undefined) w 0);
      [reflexivity | by eexists | reflexivity | lia | discriminate].
Defined.

(** ** A photo, once set, stays *)

Lemma same_id_same_item (l : list item) (a b : item) :
  NoDup (id <$> l) -> a ∈ l -> b ∈ l -> id a = id b -> a = b.
Proof.
  intros Hnd [i Hi]%list_elem_of_lookup_1 [j Hj]%list_elem_of_lookup_1 Hid.
  assert (i = j) as ->; [|congruence].
  apply (NoDup_lookup (id <$> l) i j (id a) Hnd);
    rewrite list_lookup_fmap; [by rewrite Hi | by rewrite Hj, Hid].
Qed.

Lemma photo_kept_same w w' :
  ids_distinct w -> inventory_of w' = inventory_of w -> photo_kept w w'.
Proof.
  intros Hnd Hw it it1 Hin Hin1 Hid Hphoto. rewrite Hw in Hin1.
  by rewrite <- (same_id_same_item _ _ _ Hnd Hin Hin1 Hid).
Qed.

Lemma photo_kept_insert w w1 n x x' :
  ids_distinct w -> inventory_of w !! n = Some x ->
  inventory_of w1 = <[n := x']> (inventory_of w) ->
  id x' = id x -> (photo_filename x <> None -> photo_filename x' <> None) ->
  photo_kept w w1.
Proof.
  intros Hnd Hn Hw1 Hid Hkeep it it1 Hin Hin1 Hsame Hphoto.
  rewrite Hw1 in Hin1. apply list_elem_of_lookup_1 in Hin1 as [j Hj].
  destruct (decide (n = j)) as [<-|Hne].
  - rewrite list_lookup_insert_eq in Hj by (by eapply lookup_lt_Some).
    injection Hj as <-. apply Hkeep.
    assert (it = x) as <-; [|done].
    apply (same_id_same_item _ _ _ Hnd Hin); [by eapply list_elem_of_lookup_2|].
    congruence.
  - rewrite list_lookup_insert_ne in Hj by done.
    apply list_elem_of_lookup_2 in Hj.
    by rewrite <- (same_id_same_item _ _ _ Hnd Hin Hj Hsame).
Qed.

Lemma photo_kept_failed e w w' :
  ids_distinct w -> inventory_of w' = inventory_of w -> photo_kept w (failed_write e w').
Proof.
  intros Hnd Hw it it1 Hin Hin1 Hid Hphoto.
  rewrite inventory_of_failed_write in Hin1. destruct (write_opened e).
  - by apply elem_of_nil in Hin1.
  - rewrite Hw in Hin1. by rewrite <- (same_id_same_item _ _ _ Hnd Hin Hin1 Hid).
Qed.

Lemma serve_photo_kept v e req w :
  ids_distinct w -> photo_kept w (snd (serve v e req w)).
Proof.
  intros Hnd. unfold serve.
  apply (dispatch_post e req (fun w' => inventory_of w' = inventory_of w)
           (fun rw => photo_kept w (snd rw))); auto.
  - intros [er|] w' Hw'; by apply photo_kept_same.
  - destruct v; stack_obligations; try exact I;
      try (by intros; apply photo_kept_same);
      intros Hm params Hp;
      (split; [intros _ f w' _ Hw';
               split; by rewrite ?store_photo_inventory, ?try_unlink_inventory|]);
      intros file w' Hup Hnone Hw';
      rewrite ?get_inventory_world, ?get_inventory_id_world,
        ?get_inventory_id_photo_world, ?post_search_world;
      try (by apply photo_kept_same).
    all: rewrite ?post_register_eq, ?put_inventory_id_eq, ?put_inventory_id_photo_eq,
           ?delete_inventory_id_eq; cbv zeta.
    (* registration *)
    1,5: destruct (truthy _); [|by apply photo_kept_same];
         destruct (write_ok e); [|by apply photo_kept_failed];
         intros it it1 Hin Hin1 Hid Hphoto; simpl in Hin1;
         rewrite inventory_of_stored, Hw' in Hin1;
         apply elem_of_app in Hin1 as [Hin1|Hin1];
         [ by rewrite <- (same_id_same_item _ _ _ Hnd Hin Hin1 Hid)
         | apply list_elem_of_singleton in Hin1; subst it1;
           pose proof (next_id_fresh _ _ Hin) as Hfresh; simpl in Hid; lia ].
    (* update *)
    1,4: destruct (findIndex _ _) as [n|] eqn:Hn; [|by apply photo_kept_same];
         destruct (write_ok e); [|by apply photo_kept_failed];
         rewrite Hw' in Hn; apply findIndex_Some in Hn as (x & Hx & _);
         apply (photo_kept_insert w _ n x (updated (body req) x) Hnd Hx);
         [ simpl; rewrite inventory_of_stored, Hw';
           by apply assign_fields_updated
         | done | done ].
    (* photo *)
    1,3: destruct file as [filename|]; [|by apply photo_kept_same];
         destruct (findIndex _ _) as [n|] eqn:Hn; [|by apply photo_kept_same];
         rewrite Hw' in Hn; apply findIndex_Some in Hn as (x & Hx & _);
         destruct (write_ok e);
         [ apply (photo_kept_insert w _ n x (set_photo_filename (Some filename) x)
                    Hnd Hx);
           [ simpl; rewrite inventory_of_stored, Hw'; by apply alter_as_insert
           | done | done ]
         | apply photo_kept_failed; [done|];
           by rewrite unlink_photo_of_inventory ].
    (* deletion *)
    all: destruct (findIndex _ _) as [n|] eqn:Hn; [|by apply photo_kept_same];
         destruct (write_ok e);
         [ intros it it1 Hin Hin1 Hid Hphoto; simpl in Hin1;
           rewrite inventory_of_stored, Hw' in Hin1;
           apply list_elem_of_delete_inv in Hin1;
           by rewrite <- (same_id_same_item _ _ _ Hnd Hin Hin1 Hid)
         | apply photo_kept_failed; [done|];
           by rewrite unlink_photo_of_inventory ].
Qed.

(** X15: no request takes a photo away from a record that stays stored:
    on a store with distinct ids, a record that names a photo before a
    request and is still stored after it still names one. *)
Theorem X15_photo_is_never_cleared
    (v : variant) (e : env) (req : request) (w : world) (it it1 : item) :
  ids_distinct w ->
  it ∈ inventory_of w -> it1 ∈ inventory_of (snd (serve v e req w)) ->
  id it = id it1 ->
  photo_filename it <> None -> photo_filename it1 <> None.
Proof. intros Hnd. by apply serve_photo_kept. Qed.

Lemma X15_photo_is_never_cleared_witness :
  let w := snd (run main_js
                  [ (good_env, register_req (Str "Laptop") Undefined (Some png)) ]
                  empty_store) in
  let shown := Item 1 (Str "Desktop") (Str "") (Some "1700000000000-123456789.png")
                    (Str "2025-01-01T00:00:00.000Z") Undefined in
  photo_filename shown <> None.
Proof.
  intros w shown.
  apply (X15_photo_is_never_cleared main_js good_env
           (update_req "1" (Str "Desktop") Undefined) w
           (Item 1 (Str "Laptop") (Str "") (Some "1700000000000-123456789.png")
                 (Str "2025-01-01T00:00:00.000Z") Undefined) shown).
  - apply NoDup_singleton.
  - apply list_elem_of_here.
  - apply list_elem_of_here.
  - reflexivity.
  - discriminate.
Defined.

(** ** Name and description are always there *)

Lemma complete_newItem v e req file k :
  truthy (Body.inventory_name (body req)) = true -> complete (newItem v e req file k).
Proof.
  intros Hname. split; simpl.
  - intros Hu. by rewrite Hu in Hname.
  - unfold js_or. destruct (truthy (Body.description _)) eqn:Hd; [|done].
    intros Hu. by rewrite Hu in Hd.
Qed.

Lemma complete_updated b it : complete it -> complete (updated b it).
Proof.
  intros [Hn Hd]. split; simpl.
  - by destruct (Body.inventory_name b).
  - by destruct (Body.description b).
Qed.

Lemma complete_same (w w1 : world) :
  Forall complete (inventory_of w) -> inventory_of w1 = inventory_of w ->
  Forall complete (inventory_of w1).
Proof. by intros H ->. Qed.

Lemma complete_failed (e : env) (w w1 : world) :
  Forall complete (inventory_of w) -> inventory_of w1 = inventory_of w ->
  Forall complete (inventory_of (failed_write e w1)).
Proof.
  intros H Hw. rewrite inventory_of_failed_write, Hw. by destruct (write_opened e).
Qed.

Lemma serve_complete v e req w :
  Forall complete (inventory_of w) ->
  Forall complete (inventory_of (snd (serve v e req w))).
Proof.
  intros Hall. unfold serve.
  apply (dispatch_post e req (fun w' => inventory_of w' = inventory_of w)
           (fun rw => Forall complete (inventory_of (snd rw)))); auto.
  - intros [er|] w' Hw'; by apply (complete_same w).
  - destruct v; stack_obligations; try exact I;
      try (by intros; apply (complete_same w));
      intros Hm params Hp;
      (split; [intros _ f w' _ Hw';
               split; by rewrite ?store_photo_inventory, ?try_unlink_inventory|]);
      intros file w' Hup Hnone Hw';
      rewrite ?get_inventory_world, ?get_inventory_id_world,
        ?get_inventory_id_photo_world, ?post_search_world;
      try (by apply (complete_same w)).
    all: rewrite ?post_register_eq, ?put_inventory_id_eq, ?put_inventory_id_photo_eq,
           ?delete_inventory_id_eq; cbv zeta.
    (* registration *)
    1,5: destruct (truthy _) eqn:Hname; [|by apply (complete_same w)];
         destruct (write_ok e); [|by apply (complete_failed e w)]; cbn [snd];
         rewrite inventory_of_stored, Hw'; apply Forall_app; split; [done|];
         apply Forall_singleton; by apply complete_newItem.
    (* update *)
    1,4: destruct (findIndex _ _) as [n|] eqn:Hn; [|by apply (complete_same w)];
         destruct (write_ok e); [|by apply (complete_failed e w)]; cbn [snd];
         rewrite Hw' in Hn; apply findIndex_Some in Hn as (x & Hx & _);
         rewrite inventory_of_stored, Hw', (assign_fields_updated _ _ _ _ Hx);
         apply Forall_insert; [done|]; apply complete_updated;
         rewrite Forall_forall in Hall; apply Hall;
         by eapply list_elem_of_lookup_2.
    (* photo *)
    1,3: destruct file as [filename|]; [|by apply (complete_same w)];
         destruct (findIndex _ _) as [n|]; [|by apply (complete_same w)];
         destruct (write_ok e); cbn [snd];
         [ rewrite inventory_of_stored, Hw'; apply Forall_alter; [done|];
           by intros x _ []
         | apply (complete_failed e w); [done|]; by rewrite unlink_photo_of_inventory ].
    (* deletion *)
    all: destruct (findIndex _ _) as [n|]; [|by apply (complete_same w)];
         destruct (write_ok e); cbn [snd];
         [ rewrite inventory_of_stored, Hw'; by apply Forall_delete
         | apply (complete_failed e w); [done|]; by rewrite unlink_photo_of_inventory ].
Qed.

(** X16: in every run from the empty store every stored record has an
    inventory_name and a description: registration fills both in (the
    description with "" when none is sent) and an update writes a field
    only when the body has it. *)
Theorem X16_name_and_description_always_present
    (v : variant) (t : list (env * request)) :
  Forall complete (inventory_of (snd (run v t empty_store))).
Proof.
  assert (forall w, Forall complete (inventory_of w) ->
                    Forall complete (inventory_of (snd (run v t w)))) as H.
  { induction t as [|[e req] t IH]; intros w Hw; [exact Hw|].
    simpl. pose proof (serve_complete v e req w Hw) as H1.
    destruct (serve v e req w) as [r w1]. specialize (IH w1 H1).
    by destruct (run v t w1). }
  apply H. constructor.
Qed.

(** ** A save that fails after the photo was removed *)

(** X17: when the save fails, [DELETE /inventory/:id] and
    [PUT /inventory/:id/photo] on a stored record with a photo answer 500
    "Data save error", but the photo file has already been removed.  When
    the write was refused at the open, the record file is as it was: the
    record still names the photo and the photo route answers 404 "Photo
    file not found" from then on.  When the write failed after the open,
    the record file is truncated, the record is gone with it and the photo
    route answers 404 "Photo not found". *)
Theorem X17_failed_save_still_removes_the_photo
    (v : variant) (e e' : env) (req one : request) (w : world)
    (i j name : string) (it : item) :
  (req_method req = DELETE /\
   match_path [Lit "inventory"; Param] (path req) = Some [i]) \/
  (req_method req = PUT /\
   match_path [Lit "inventory"; Param; Lit "photo"] (path req) = Some [i] /\
   exists f, photo_part req = Some f /\ accepted f) ->
  write_ok e = false ->
  ids_distinct w ->
  it ∈ inventory_of w ->
  parseInt i = Some (id it) ->
  photo_filename it = Some name -> name <> "" ->
  req_method one = GET ->
  match_path [Lit "inventory"; Param; Lit "photo"] (path one) = Some [j] ->
  parseInt j = Some (id it) ->
  let '(r, w1) := serve v e req w in
  r = Response 500 (ErrorJson "Data save error") /\
  data_file w1 = (if write_opened e then Unparsable else data_file w) /\
  (name ∉ photos w1) /\
  serve v e' one w1 =
    (Response 404 (ErrorJson (if write_opened e then "Photo not found"
                              else "Photo file not found")), w1).
Proof.
  intros Hroute He Hnd Hin Hi Hname Hne Hgm Hgp Hj.
  destruct (list_elem_of_lookup_1 _ _ Hin) as [n Hn].
  assert (exists w0 : world,
            data_file w0 = data_file w /\
            serve v e req w
              = (Response 500 (ErrorJson "Data save error"),
                 failed_write e (snd (unlink_photo_of (Some it) w0))))
    as (w0 & Hw0 & ->).
  { destruct Hroute as [[Hm Hp] | (Hm & Hp & f & Hf & Hacc)].
    - exists w. split; [reflexivity|].
      by rewrite (serve_delete_stored v e req w i n it Hm Hp Hnd Hn Hi), He.
    - eexists (World (data_file w) _). split; [reflexivity|].
      by rewrite (serve_put_photo_stored v e req w i n it f Hm Hp Hf Hacc Hnd Hn Hi),
           He. }
  set (w1 := failed_write e _).
  assert (name ∉ photos w1) as Hout.
  { unfold w1. rewrite photos_failed_write, photos_unlink_photo_of, Hname.
    destruct (String.eqb_spec name ""); [done|].
    rewrite elem_of_difference, elem_of_singleton. by intros [_ ?]. }
  assert (inventory_of w1 = if write_opened e then [] else inventory_of w) as Hinv.
  { unfold w1. rewrite inventory_of_failed_write, unlink_photo_of_inventory.
    by rewrite !inventory_of_data_file, Hw0. }
  split; [reflexivity|]. split; [|split; [exact Hout|]].
  - unfold w1. by rewrite data_file_failed_write, unlink_photo_of_data_file, Hw0.
  - destruct (write_opened e).
    + rewrite (serve_get_inventory_id_photo v e' one w1 j Hgm Hgp),
        get_inventory_id_photo_eq.
      by rewrite Hinv.
    + rewrite (serve_photo_route v e' one w1 j it name Hgm Hgp); try done.
      * by rewrite bool_decide_eq_false_2.
      * unfold ids_distinct. by rewrite Hinv.
      * by rewrite Hinv.
Qed.

Lemma X17_failed_save_still_removes_the_photo_witness :
  let w := snd (run main_js
                  [ (good_env, register_req (Str "Laptop") Undefined (Some png)) ]
                  empty_store) in
  let '(r, w1) := serve main_js bad_disk (delete_req "1") w in
  r = Response 500 (ErrorJson "Data save error") /\
  data_file w1 = data_file w /\
  ("1700000000000-123456789.png" ∉ photos w1) /\
  serve main_js good_env (Request GET ["inventory"; "1"; "photo"] Body.empty None) w1
    = (Response 404 (ErrorJson "Photo file not found"), w1).
Proof.
  intros w.
  apply (X17_failed_save_still_removes_the_photo main_js bad_disk good_env
           (delete_req "1") (Request GET ["inventory"; "1"; "photo"] Body.empty None)
           w "1" "1" "1700000000000-123456789.png"
           (Item 1 (Str "Laptop") (Str "") (Some "1700000000000-123456789.png")
                 (Str "2025-01-01T00:00:00.000Z") Undefined)).
  - left. by split.
  - reflexivity.
  - apply NoDup_singleton.
  - apply list_elem_of_here.
  - reflexivity.
  - reflexivity.
  - discriminate.
  - reflexivity.
  - reflexivity.
  - reflexivity.
Defined.

(** ** Repeating an update *)

Lemma findIndex_insert {A} (p : A -> bool) (l : list A) (i : nat) (x : A) :
  findIndex p l = Some i -> p x = true -> findIndex p (<[i := x]> l) = Some i.
Proof.
  revert i. induction l as [|a l IH]; intros i; simpl; [discriminate|].
  destruct (p a) eqn:Hpa.
  - intros [= <-] Hx. simpl. by rewrite Hx.
  - destruct (findIndex p l) as [k|] eqn:Hk; simpl; [|discriminate].
    intros [= <-] Hx. simpl. by rewrite Hpa, (IH k eq_refl Hx).
Qed.

Lemma updated_twice (b : Body.t) (it : item) : updated b (updated b it) = updated b it.
Proof.
  unfold updated. simpl. f_equal.
  - by destruct (Body.inventory_name b).
  - by destruct (Body.description b).
Qed.

(** X18: [PUT /inventory/:id] is idempotent: when both writes succeed, the
    same update served a second time gives the same response and leaves the
    record file and the photo directory as the first one left them. *)
Theorem X18_update_is_idempotent
    (v : variant) (e e' : env) (req : request) (w : world) (i : string) :
  req_method req = PUT ->
  match_path [Lit "inventory"; Param] (path req) = Some [i] ->
  write_ok e = true -> write_ok e' = true ->
  let '(r, w1) := serve v e req w in
  serve v e' req w1 = (r, w1).
Proof.
  intros Hm Hp He He'.
  rewrite (serve_put_inventory_id v e req w i Hm Hp), put_inventory_id_eq.
  cbv zeta. destruct (findIndex _ (inventory_of w)) as [n|] eqn:Hn.
  - rewrite He.
    pose proof Hn as Hn'. apply findIndex_Some in Hn' as (it & Hit & Hpit & _).
    rewrite (assign_fields_updated _ _ _ _ Hit).
    assert (n < length (inventory_of w))%nat as Hlt by (by eapply lookup_lt_Some).
    rewrite (serve_put_inventory_id v e' req _ i Hm Hp), put_inventory_id_eq.
    cbv zeta. rewrite inventory_of_stored.
    rewrite (findIndex_insert _ _ _ (updated (body req) it) Hn) by exact Hpit.
    rewrite He'.
    rewrite (assign_fields_updated _ n _ (updated (body req) it))
      by (by apply list_lookup_insert_eq).
    by rewrite list_insert_insert_eq, updated_twice.
  - rewrite (serve_put_inventory_id v e' req _ i Hm Hp), put_inventory_id_eq.
    cbv zeta. by rewrite Hn.
Qed.

Lemma X18_update_is_idempotent_witness :
  let w := snd (run main_js
                  [ (good_env, register_req (Str "Laptop") Undefined None) ]
                  empty_store) in
  let req := update_req "1" (Str "Desktop") Undefined in
  let '(r, w1) := serve main_js good_env req w in
  serve main_js good_env req w1 = (r, w1).
Proof.
  intros w req.
  by apply (X18_update_is_idempotent main_js good_env good_env req w "1").
Defined.
